(** * SecondOp_FHE: a confidential medical-case registry

    Shallow embedding of [contracts/SecondOp_FHE.sol] and the properties of
    its specification.

    The contract keeps a [mapping(string => MedicalCase)] and a [string[]] of
    case ids.  Every external function is embedded as a computation in a
    small state-and-revert monad; a transaction runs such a computation and
    commits its storage only when it returns normally.

    The FHE library of [@fhevm/solidity] is imported by the contract and is
    not part of it: its operations are the fields of the interface
    [FHE.Lib], and every theorem holds for any implementation of it. *)

From Stdlib Require Import ZArith String List Bool Lia.
From Stdlib Require Strings.Byte.
From stdpp Require Import base option gmap strings list fin_maps.

Import ListNotations.
Local Open Scope string_scope.
Local Open Scope list_scope.
Local Open Scope Z_scope.

(** ** Solidity value types *)

Definition uint256 := Z.
Definition uint32 := Z.
Definition address := Z.
Definition bytes32 := Z.
Definition bytes := list Byte.byte.

(** [type euint32 is bytes32] and [type externalEuint32 is bytes32]: opaque
    ciphertext handles. *)
Definition euint32 := bytes32.
Definition externalEuint32 := bytes32.

(** ** The FHE library, as an interface *)

Module FHE.

(** [ACL] is the state of the access-control list the library writes to.
    A result of [None] means that the library call reverts.
    [fromExternal] reads [msg.sender], which is passed explicitly; within
    one transaction it is a function of its arguments.
    [checkSignatures] sees its three arguments only; the contract ignores
    whatever it returns, so a rejected attestation is a revert, here the
    result [false]. *)
Class Lib := {
  ACL : Type;
  fromExternal : address -> externalEuint32 -> bytes -> option euint32;
  isInitialized : euint32 -> bool;
  allowThis : euint32 -> ACL -> option ACL;
  makePubliclyDecryptable : euint32 -> ACL -> option ACL;
  toBytes32 : euint32 -> bytes32;
  checkSignatures : list bytes32 -> bytes -> bytes -> bool
}.

End FHE.

(** ** ABI coding of a [uint32]

    [abi.decode(data, (uint32))] reads the first 32-byte word of [data] as a
    big-endian integer; it reverts when [data] is shorter than one word or
    when the word does not fit in 32 bits.  Bytes after the first word are
    ignored. *)

Definition word_of_bytes (bs : bytes) : Z :=
  fold_left (fun acc b => acc * 256 + Z.of_N (Byte.to_N b)) bs 0.

Definition abi_decode_uint32 (data : bytes) : option uint32 :=
  if (length data <? 32)%nat then None
  else
    let w := word_of_bytes (take 32 data) in
    if w <? 2 ^ 32 then Some w else None.

Definition byte_of_Z (z : Z) : Byte.byte :=
  default Byte.x00 (Byte.of_N (Z.to_N (z mod 256))).

(** [abi.encode(uint32(v))]: one word, the value right-aligned. *)
Definition abi_encode_uint32 (v : uint32) : bytes :=
  replicate 28 Byte.x00 ++
  [byte_of_Z (v / 2 ^ 24); byte_of_Z (v / 2 ^ 16); byte_of_Z (v / 2 ^ 8); byte_of_Z v].

(** ** The data model *)

Module MedicalCase.

Record t := mk {
  patientId : string;
  encryptedDiagnosis : euint32;
  caseId : uint256;
  medicalHistory : string;
  specialist : address;
  timestamp : uint256;
  decryptedDiagnosis : uint32;
  isVerified : bool
}.

(** The value of a storage slot that was never written. *)
Definition zero : t := mk "" 0 0 "" 0 0 0 false.

Definition set_decryptedDiagnosis (v : uint32) (c : t) : t :=
  mk (patientId c) (encryptedDiagnosis c) (caseId c) (medicalHistory c)
     (specialist c) (timestamp c) v (isVerified c).

Definition set_isVerified (b : bool) (c : t) : t :=
  mk (patientId c) (encryptedDiagnosis c) (caseId c) (medicalHistory c)
     (specialist c) (timestamp c) (decryptedDiagnosis c) b.

End MedicalCase.

#[global] Instance MedicalCase_inhabited : Inhabited MedicalCase.t :=
  populate MedicalCase.zero.

Inductive Event :=
| MedicalCaseCreated (caseId : string) (specialist : address)
| DiagnosisVerified (caseId : string) (decryptedDiagnosis : uint32).

(** What a function reads from its transaction: [msg.sender] and
    [block.timestamp]. *)
Record Env := { msg_sender : address; block_timestamp : uint256 }.

(** Why a call reverted. *)
Inductive error :=
| Error (reason : string)     (* a failed [require(_, reason)] *)
| FHERevert (callee : string) (* the named library call reverted *)
| AbiDecodeRevert.            (* [abi.decode] rejected its input *)

Section Contract.

Context `{lib : FHE.Lib}.

(** Contract storage, the library's access-control list and the log of
    emitted events.  A read of [medicalCases] at a key that was never
    written gives [MedicalCase.zero], so reads go through [!!!]. *)
Record State := mkState {
  medicalCases : gmap string MedicalCase.t;
  caseIds : list string;
  acl : FHE.ACL;
  events : list Event
}.

(** *** The execution monad

    [Revert e s] keeps the state [s] that execution had reached when it
    aborted; a transaction throws it away (see [commit]). *)
Inductive outcome (A : Type) :=
| Ok (a : A) (s : State)
| Revert (e : error) (s : State).
Arguments Ok {A} a s.
Arguments Revert {A} e s.

Definition M (A : Type) : Type := State -> outcome A.

Definition ret {A} (a : A) : M A := fun s => Ok a s.

Definition bind {A B} (m : M A) (k : A -> M B) : M B :=
  fun s =>
    match m s with
    | Ok a s' => k a s'
    | Revert e s' => Revert e s'
    end.

Definition revert {A} (e : error) : M A := fun s => Revert e s.

Definition require (cond : bool) (reason : string) : M unit :=
  if cond then ret tt else revert (Error reason).

Definition gets {A} (f : State -> A) : M A := fun s => Ok (f s) s.

Definition modify (f : State -> State) : M unit := fun s => Ok tt (f s).

End Contract.

Arguments Ok {lib A} a s.
Arguments Revert {lib A} e s.

Declare Scope sol_scope.
Delimit Scope sol_scope with sol.
Notation "x <- m ;; k" := (bind m (fun x => k))
  (at level 100, m at next level, right associativity) : sol_scope.
Notation "m ;;; k" := (bind m (fun _ => k))
  (at level 100, right associativity) : sol_scope.

Section Functions.

Context `{lib : FHE.Lib}.
Local Open Scope sol_scope.

(** *** Storage and library accesses *)

(** [medicalCases[caseId]], read. *)
Definition load (caseId : string) : M MedicalCase.t :=
  gets (fun s => medicalCases s !!! caseId).

(** [medicalCases[caseId] = c]. *)
Definition store (caseId : string) (c : MedicalCase.t) : M unit :=
  modify (fun s =>
    mkState (<[caseId := c]> (medicalCases s)) (caseIds s) (acl s) (events s)).

(** [caseIds.push(caseId)]. *)
Definition push (caseId : string) : M unit :=
  modify (fun s =>
    mkState (medicalCases s) (caseIds s ++ [caseId]) (acl s) (events s)).

Definition emit (e : Event) : M unit :=
  modify (fun s =>
    mkState (medicalCases s) (caseIds s) (acl s) (events s ++ [e])).

Definition FHE_fromExternal (env : Env) (h : externalEuint32) (proof : bytes)
  : M euint32 :=
  match FHE.fromExternal (msg_sender env) h proof with
  | Some e => ret e
  | None => revert (FHERevert "FHE.fromExternal")
  end.

(** A library call that updates the access-control list. *)
Definition acl_call (callee : string) (f : FHE.ACL -> option FHE.ACL) : M unit :=
  a <- gets acl ;;
  match f a with
  | Some a' =>
      modify (fun s => mkState (medicalCases s) (caseIds s) a' (events s))
  | None => revert (FHERevert callee)
  end.

Definition FHE_allowThis (h : euint32) : M unit :=
  acl_call "FHE.allowThis" (FHE.allowThis h).

Definition FHE_makePubliclyDecryptable (h : euint32) : M unit :=
  acl_call "FHE.makePubliclyDecryptable" (FHE.makePubliclyDecryptable h).

Definition FHE_checkSignatures (cts : list bytes32) (cleartexts proof : bytes)
  : M unit :=
  if FHE.checkSignatures cts cleartexts proof then ret tt
  else revert (FHERevert "FHE.checkSignatures").

Definition abi_decode (data : bytes) : M uint32 :=
  match abi_decode_uint32 data with
  | Some v => ret v
  | None => revert AbiDecodeRevert
  end.

(** *** The contract's functions *)

Definition createMedicalCase (env : Env) (caseId patientId : string)
    (encryptedDiagnosis : externalEuint32) (inputProof : bytes)
    (caseIdentifier : uint256) (medicalHistory : string) : M unit :=
  c <- load caseId ;;
  require (String.length (MedicalCase.patientId c) =? 0)%nat
          "Medical case already exists" ;;;
  h <- FHE_fromExternal env encryptedDiagnosis inputProof ;;
  require (FHE.isInitialized h) "Invalid encrypted diagnosis" ;;;
  h <- FHE_fromExternal env encryptedDiagnosis inputProof ;;
  store caseId
    {| MedicalCase.patientId := patientId;
       MedicalCase.encryptedDiagnosis := h;
       MedicalCase.caseId := caseIdentifier;
       MedicalCase.medicalHistory := medicalHistory;
       MedicalCase.specialist := msg_sender env;
       MedicalCase.timestamp := block_timestamp env;
       MedicalCase.decryptedDiagnosis := 0;
       MedicalCase.isVerified := false |} ;;;
  c <- load caseId ;;
  FHE_allowThis (MedicalCase.encryptedDiagnosis c) ;;;
  c <- load caseId ;;
  FHE_makePubliclyDecryptable (MedicalCase.encryptedDiagnosis c) ;;;
  push caseId ;;;
  emit (MedicalCaseCreated caseId (msg_sender env)).

Definition verifyDiagnosis (env : Env) (caseId : string)
    (abiEncodedClearDiagnosis decryptionProof : bytes) : M unit :=
  c <- load caseId ;;
  require (0 <? String.length (MedicalCase.patientId c))%nat
          "Medical case does not exist" ;;;
  c <- load caseId ;;
  require (negb (MedicalCase.isVerified c)) "Diagnosis already verified" ;;;
  c <- load caseId ;;
  let cts := [FHE.toBytes32 (MedicalCase.encryptedDiagnosis c)] in
  FHE_checkSignatures cts abiEncodedClearDiagnosis decryptionProof ;;;
  decodedDiagnosis <- abi_decode abiEncodedClearDiagnosis ;;
  c <- load caseId ;;
  store caseId (MedicalCase.set_decryptedDiagnosis decodedDiagnosis c) ;;;
  c <- load caseId ;;
  store caseId (MedicalCase.set_isVerified true c) ;;;
  emit (DiagnosisVerified caseId decodedDiagnosis).

Definition getEncryptedDiagnosis (caseId : string) : M euint32 :=
  c <- load caseId ;;
  require (0 <? String.length (MedicalCase.patientId c))%nat
          "Medical case does not exist" ;;;
  c <- load caseId ;;
  ret (MedicalCase.encryptedDiagnosis c).

(** The tuple [getMedicalCase] returns. *)
Record CaseView := mkView {
  view_patientId : string;
  view_caseIdentifier : uint256;
  view_medicalHistory : string;
  view_specialist : address;
  view_timestamp : uint256;
  view_isVerified : bool;
  view_decryptedDiagnosis : uint32
}.

Definition getMedicalCase (caseId : string) : M CaseView :=
  c <- load caseId ;;
  require (0 <? String.length (MedicalCase.patientId c))%nat
          "Medical case does not exist" ;;;
  data <- load caseId ;;
  ret (mkView (MedicalCase.patientId data)
              (MedicalCase.caseId data)
              (MedicalCase.medicalHistory data)
              (MedicalCase.specialist data)
              (MedicalCase.timestamp data)
              (MedicalCase.isVerified data)
              (MedicalCase.decryptedDiagnosis data)).

Definition getAllCaseIds : M (list string) := gets caseIds.

Definition isAvailable : M bool := ret true.

(** The record a successful [createMedicalCase] leaves at its key. *)
Definition new_case (env : Env) (patientId : string) (h : euint32)
    (caseIdentifier : uint256) (medicalHistory : string) : MedicalCase.t :=
  MedicalCase.mk patientId h caseIdentifier medicalHistory
    (msg_sender env) (block_timestamp env) 0 false.

(** *** Transactions *)

Inductive Call :=
| CreateMedicalCase (caseId patientId : string)
    (encryptedDiagnosis : externalEuint32) (inputProof : bytes)
    (caseIdentifier : uint256) (medicalHistory : string)
| VerifyDiagnosis (caseId : string)
    (abiEncodedClearDiagnosis decryptionProof : bytes).

Definition dispatch (env : Env) (c : Call) : M unit :=
  match c with
  | CreateMedicalCase caseId patientId ed proof ident history =>
      createMedicalCase env caseId patientId ed proof ident history
  | VerifyDiagnosis caseId clear proof =>
      verifyDiagnosis env caseId clear proof
  end.

(** The state a call leaves behind: a revert rolls every write back. *)
Definition commit {A} (o : outcome A) (s : State) : State :=
  match o with
  | Ok _ s' => s'
  | Revert _ _ => s
  end.

(** What the caller sees: the returned value or the reason of the revert. *)
Definition returned {A} (o : outcome A) : A + error :=
  match o with
  | Ok a _ => inl a
  | Revert e _ => inr e
  end.

Definition transact (tx : Env * Call) (s : State) : State :=
  commit (dispatch (fst tx) (snd tx) s) s.

Definition run (txs : list (Env * Call)) (s : State) : State :=
  fold_left (fun s tx => transact tx s) txs s.

(** The state after deployment: the constructor writes nothing. *)
Definition deployed (a : FHE.ACL) : State := mkState ∅ [] a [].

(** The case ids of the [createMedicalCase] calls of [txs] that returned
    normally, in order, when [txs] runs from [s]. *)
Fixpoint created (txs : list (Env * Call)) (s : State) : list string :=
  match txs with
  | [] => []
  | tx :: rest =>
      match snd tx, dispatch (fst tx) (snd tx) s with
      | CreateMedicalCase caseId _ _ _ _ _, Ok _ _ =>
          caseId :: created rest (transact tx s)
      | _, _ => created rest (transact tx s)
      end
  end.

(** The key a call works on. *)
Definition call_id (c : Call) : string :=
  match c with
  | CreateMedicalCase caseId _ _ _ _ _ => caseId
  | VerifyDiagnosis caseId _ _ => caseId
  end.

(** The existence test of the contract: [bytes(patientId).length > 0]. *)
Definition exists_case (s : State) (caseId : string) : bool :=
  (0 <? String.length (MedicalCase.patientId (medicalCases s !!! caseId)))%nat.

(** [c'] agrees with [c] on every field but [decryptedDiagnosis] and
    [isVerified]. *)
Definition same_identity (c c' : MedicalCase.t) : Prop :=
  MedicalCase.patientId c' = MedicalCase.patientId c /\
  MedicalCase.encryptedDiagnosis c' = MedicalCase.encryptedDiagnosis c /\
  MedicalCase.caseId c' = MedicalCase.caseId c /\
  MedicalCase.medicalHistory c' = MedicalCase.medicalHistory c /\
  MedicalCase.specialist c' = MedicalCase.specialist c /\
  MedicalCase.timestamp c' = MedicalCase.timestamp c.

(** The library admits the ciphertext [(ed, proof)] of [env]'s sender as the
    handle [h] and performs both grants on it, taking the access-control
    list from [a] to [a']. *)
Definition admits (env : Env) (ed : externalEuint32) (proof : bytes)
    (a : FHE.ACL) (h : euint32) (a' : FHE.ACL) : Prop :=
  FHE.fromExternal (msg_sender env) ed proof = Some h /\
  FHE.isInitialized h = true /\
  exists a1, FHE.allowThis h a = Some a1 /\
             FHE.makePubliclyDecryptable h a1 = Some a'.

(** A transaction that calls [verifyDiagnosis]. *)
Definition is_verify (tx : Env * Call) : Prop :=
  match snd tx with
  | VerifyDiagnosis _ _ _ => True
  | CreateMedicalCase _ _ _ _ _ _ => False
  end.

End Functions.

(** ** A small implementation of the library interface

    Used to run the contract on concrete inputs.  It admits a ciphertext
    whenever its proof is not empty, accepts a decryption proof whenever it
    is not empty, and records the grants it is asked for. *)

Module Mock.

Record acl := mkAcl {
  allowedThis : list euint32;
  publiclyDecryptable : list euint32
}.

Definition lib : FHE.Lib := {|
  FHE.ACL := acl;
  FHE.fromExternal := fun _ h proof =>
    match proof with [] => None | _ :: _ => Some h end;
  FHE.isInitialized := fun h => negb (h =? 0);
  FHE.allowThis := fun h a =>
    Some (mkAcl (allowedThis a ++ [h]) (publiclyDecryptable a));
  FHE.makePubliclyDecryptable := fun h a =>
    Some (mkAcl (allowedThis a) (publiclyDecryptable a ++ [h]));
  FHE.toBytes32 := fun h => h;
  FHE.checkSignatures := fun _ _ proof =>
    match proof with [] => false | _ :: _ => true end
|}.

Definition acl0 : acl := mkAcl [] [].

(** The contract, just deployed over this library. *)
Definition s0 : @State lib := @deployed lib acl0.

Definition alice : Env := {| msg_sender := 4097; block_timestamp := 1700000000 |}.
Definition bob : Env := {| msg_sender := 4098; block_timestamp := 1700000060 |}.

Definition proof : bytes := [Byte.x01].

(** The calls of the examples. *)
Definition create_case1 : Env * Call :=
  (alice, CreateMedicalCase "case1" "p1" 7 proof 42 "history").
Definition create_A_no_patient : Env * Call :=
  (alice, CreateMedicalCase "A" "" 7 proof 42 "history").
Definition create_A_again : Env * Call :=
  (bob, CreateMedicalCase "A" "p2" 8 proof 43 "second history").
Definition create_A : Env * Call :=
  (alice, CreateMedicalCase "A" "pa" 1 proof 1 "ha").
Definition create_B : Env * Call :=
  (bob, CreateMedicalCase "B" "pb" 2 proof 2 "hb").
Definition create_C : Env * Call :=
  (alice, CreateMedicalCase "C" "pc" 3 proof 3 "hc").
Definition verify_case1 (v : uint32) : Env * Call :=
  (bob, VerifyDiagnosis "case1" (abi_encode_uint32 v) proof).

End Mock.

(** ** Reachable states, the event log and the generated getter *)

Section Observers.

Context `{lib : FHE.Lib}.

(** The states the contract can be in: those a sequence of transactions
    produces from the deployed contract. *)
Definition reachable (s : State) : Prop :=
  exists a txs, s = run txs (deployed a).

(** The keys of the [MedicalCaseCreated] events of a log, in order. *)
Fixpoint created_keys (evs : list Event) : list string :=
  match evs with
  | [] => []
  | MedicalCaseCreated caseId _ :: rest => caseId :: created_keys rest
  | DiagnosisVerified _ _ :: rest => created_keys rest
  end.

(** The [DiagnosisVerified] events of a log, in order. *)
Fixpoint verified_log (evs : list Event) : list (string * uint32) :=
  match evs with
  | [] => []
  | MedicalCaseCreated _ _ :: rest => verified_log rest
  | DiagnosisVerified caseId v :: rest => (caseId, v) :: verified_log rest
  end.

(** The getter that [mapping(string => MedicalCase) public medicalCases]
    declares: it returns every member of the struct at the key and checks
    nothing. *)
Definition medicalCases_getter (caseId : string) : M MedicalCase.t :=
  load caseId.

End Observers.

(** ** The operation history of the web front end

    [addToHistory] of [frontend/web/src/App.tsx] puts the new entry in front
    of the first nine entries of the previous history.  The entry is the
    clock reading, a colon and a space, and the operation; the clock reading
    is passed in. *)

Module App.

Definition history_entry (time operation : string) : string :=
  (time ++ ": " ++ operation)%string.

Definition addToHistory (time operation : string) (prev : list string)
  : list string :=
  history_entry time operation :: take 9 prev.

(** The history after the calls [ops], oldest first, starting from the
    initial state [[]] of [operationHistory]. *)
Definition history_after (ops : list (string * string)) : list string :=
  fold_left (fun prev op => addToHistory (fst op) (snd op) prev) ops [].

End App.

(** * Properties *)

(** ** ABI coding *)

Lemma byte_of_Z_to_N (z : Z) :
  0 <= z < 256 -> Z.of_N (Byte.to_N (byte_of_Z z)) = z.
Proof.
  intros Hz. unfold byte_of_Z.
  rewrite Z.mod_small by lia.
  destruct (Byte.of_N (Z.to_N z)) as [b|] eqn:Hb.
  - apply Byte.to_of_N in Hb. simpl. rewrite Hb. lia.
  - apply Byte.of_N_None_iff in Hb. lia.
Qed.

Lemma byte_of_Z_mod (z : Z) :
  Z.of_N (Byte.to_N (byte_of_Z z)) = z mod 256.
Proof.
  rewrite <- (byte_of_Z_to_N (z mod 256)).
  - unfold byte_of_Z. now rewrite Z.mod_mod by lia.
  - apply Z.mod_pos_bound. lia.
Qed.

Lemma word_of_bytes_encode (v : uint32) :
  0 <= v < 2 ^ 32 -> word_of_bytes (abi_encode_uint32 v) = v.
Proof.
  intros Hv. unfold abi_encode_uint32, word_of_bytes.
  rewrite fold_left_app.
  assert (Hz : fold_left (fun acc b => acc * 256 + Z.of_N (Byte.to_N b))
                 (replicate 28 Byte.x00) 0 = 0) by reflexivity.
  rewrite Hz. cbn [fold_left].
  rewrite !byte_of_Z_mod.
  change (2 ^ 24) with (256 * (256 * 256)).
  change (2 ^ 16) with (256 * 256).
  change (2 ^ 8) with 256.
  change (2 ^ 32) with (256 * (256 * (256 * 256))) in Hv.
  rewrite <- !Z.div_div by lia.
  set (a := v / 256). set (b := a / 256). set (c := b / 256).
  assert (Hc : c mod 256 = c).
  { apply Z.mod_small. subst c b a.
    split.
    - repeat apply Z.div_pos; lia.
    - repeat (apply Z.div_lt_upper_bound; [lia|]). lia. }
  rewrite Hc.
  pose proof (Z.div_mod v 256 ltac:(lia)).
  pose proof (Z.div_mod a 256 ltac:(lia)).
  pose proof (Z.div_mod b 256 ltac:(lia)).
  subst c b a. lia.
Qed.

Lemma abi_encode_uint32_length (v : uint32) :
  length (abi_encode_uint32 v) = 32%nat.
Proof. reflexivity. Qed.

(** Decoding inverts encoding on every 32-bit value. *)
Lemma abi_decode_encode_uint32 (v : uint32) :
  0 <= v < 2 ^ 32 -> abi_decode_uint32 (abi_encode_uint32 v) = Some v.
Proof.
  intros Hv. unfold abi_decode_uint32.
  rewrite abi_encode_uint32_length.
  change (32 <? 32)%nat with false. cbv iota.
  rewrite firstn_all2 by (rewrite abi_encode_uint32_length; lia).
  rewrite word_of_bytes_encode by exact Hv.
  destruct (Z.ltb_spec v (2 ^ 32)); [reflexivity | lia].
Qed.

Lemma word_of_bytes_nonneg (bs : bytes) : 0 <= word_of_bytes bs.
Proof.
  unfold word_of_bytes.
  assert (H : forall acc, 0 <= acc ->
            0 <= fold_left (fun acc b => acc * 256 + Z.of_N (Byte.to_N b)) bs acc).
  { induction bs as [|b bs IH]; intros acc Hacc; simpl; [exact Hacc|].
    apply IH. lia. }
  apply H. lia.
Qed.

(** The decoder only returns 32-bit values. *)
Lemma abi_decode_uint32_range (data : bytes) (v : uint32) :
  abi_decode_uint32 data = Some v -> 0 <= v < 2 ^ 32.
Proof.
  unfold abi_decode_uint32.
  destruct (length data <? 32)%nat; [discriminate|].
  cbv zeta.
  destruct (Z.ltb_spec (word_of_bytes (take 32 data)) (2 ^ 32)); [|discriminate].
  intros [= <-]. split; [apply word_of_bytes_nonneg | assumption].
Qed.

Section Properties.

Context `{lib : FHE.Lib}.

(** ** What each function computes *)

Lemma createMedicalCase_unfold env caseId patientId ed proof ident history s :
  createMedicalCase env caseId patientId ed proof ident history s =
  if (String.length (MedicalCase.patientId (medicalCases s !!! caseId)) =? 0)%nat
  then
    match FHE.fromExternal (msg_sender env) ed proof with
    | None => Revert (FHERevert "FHE.fromExternal") s
    | Some h =>
        if FHE.isInitialized h then
          let m' := <[caseId := new_case env patientId h ident history]>
                      (medicalCases s) in
          match FHE.allowThis h (acl s) with
          | None =>
              Revert (FHERevert "FHE.allowThis")
                     (mkState m' (caseIds s) (acl s) (events s))
          | Some a1 =>
              match FHE.makePubliclyDecryptable h a1 with
              | None =>
                  Revert (FHERevert "FHE.makePubliclyDecryptable")
                         (mkState m' (caseIds s) a1 (events s))
              | Some a2 =>
                  Ok tt (mkState m' (caseIds s ++ [caseId]) a2
                           (events s ++ [MedicalCaseCreated caseId (msg_sender env)]))
              end
          end
        else Revert (Error "Invalid encrypted diagnosis") s
    end
  else Revert (Error "Medical case already exists") s.
Proof.
  unfold createMedicalCase, bind, load, gets, require, FHE_fromExternal. simpl.
  destruct (String.length _ =? 0)%nat; simpl; [|reflexivity].
  destruct (FHE.fromExternal _ _ _) as [h|]; simpl; [|reflexivity].
  destruct (FHE.isInitialized h); simpl; [|reflexivity].
  unfold FHE_allowThis, FHE_makePubliclyDecryptable, acl_call, bind, gets,
    modify, revert. simpl.
  rewrite lookup_total_insert_eq. simpl.
  destruct (FHE.allowThis h (acl s)) as [a1|]; simpl; [|reflexivity].
  rewrite lookup_total_insert_eq. simpl.
  destruct (FHE.makePubliclyDecryptable h a1) as [a2|]; reflexivity.
Qed.

Lemma verifyDiagnosis_unfold env caseId clear proof s :
  verifyDiagnosis env caseId clear proof s =
  let c := medicalCases s !!! caseId in
  if (0 <? String.length (MedicalCase.patientId c))%nat then
    if negb (MedicalCase.isVerified c) then
      if FHE.checkSignatures
           [FHE.toBytes32 (MedicalCase.encryptedDiagnosis c)] clear proof
      then
        match abi_decode_uint32 clear with
        | Some v =>
            Ok tt (mkState
                     (<[caseId := MedicalCase.set_isVerified true
                                    (MedicalCase.set_decryptedDiagnosis v c)]>
                        (medicalCases s))
                     (caseIds s) (acl s)
                     (events s ++ [DiagnosisVerified caseId v]))
        | None => Revert AbiDecodeRevert s
        end
      else Revert (FHERevert "FHE.checkSignatures") s
    else Revert (Error "Diagnosis already verified") s
  else Revert (Error "Medical case does not exist") s.
Proof.
  unfold verifyDiagnosis, bind, load, gets, require, FHE_checkSignatures,
    abi_decode. simpl.
  destruct (0 <? String.length _)%nat; simpl; [|reflexivity].
  destruct (MedicalCase.isVerified _); simpl; [reflexivity|].
  destruct (FHE.checkSignatures _ _ _); simpl; [|reflexivity].
  destruct (abi_decode_uint32 clear) as [v|]; simpl; [|reflexivity].
  rewrite lookup_total_insert_eq, insert_insert_eq. reflexivity.
Qed.

Lemma getMedicalCase_unfold caseId s :
  getMedicalCase caseId s =
  let c := medicalCases s !!! caseId in
  if (0 <? String.length (MedicalCase.patientId c))%nat then
    Ok (mkView (MedicalCase.patientId c) (MedicalCase.caseId c)
               (MedicalCase.medicalHistory c) (MedicalCase.specialist c)
               (MedicalCase.timestamp c) (MedicalCase.isVerified c)
               (MedicalCase.decryptedDiagnosis c)) s
  else Revert (Error "Medical case does not exist") s.
Proof.
  unfold getMedicalCase, bind, load, gets, require. simpl.
  destruct (0 <? String.length _)%nat; reflexivity.
Qed.

Lemma getEncryptedDiagnosis_unfold caseId s :
  getEncryptedDiagnosis caseId s =
  let c := medicalCases s !!! caseId in
  if (0 <? String.length (MedicalCase.patientId c))%nat then
    Ok (MedicalCase.encryptedDiagnosis c) s
  else Revert (Error "Medical case does not exist") s.
Proof.
  unfold getEncryptedDiagnosis, bind, load, gets, require. simpl.
  destruct (0 <? String.length _)%nat; reflexivity.
Qed.

(** ** Inversion of the normal returns *)

Lemma length_zero_eqb (x : string) :
  (String.length x =? 0)%nat = negb (0 <? String.length x)%nat.
Proof. destruct x; reflexivity. Qed.

Lemma createMedicalCase_Ok env caseId patientId ed proof ident history s u s' :
  createMedicalCase env caseId patientId ed proof ident history s = Ok u s' ->
  exists_case s caseId = false /\
  exists h, admits env ed proof (acl s) h (acl s') /\
    medicalCases s' =
      <[caseId := new_case env patientId h ident history]> (medicalCases s) /\
    caseIds s' = caseIds s ++ [caseId] /\
    events s' = events s ++ [MedicalCaseCreated caseId (msg_sender env)].
Proof.
  rewrite createMedicalCase_unfold, length_zero_eqb. unfold exists_case, admits.
  destruct (0 <? String.length _)%nat; simpl; [discriminate|].
  destruct (FHE.fromExternal _ _ _) as [h|]; [|discriminate].
  destruct (FHE.isInitialized h) eqn:Hi; [|discriminate].
  cbv zeta.
  destruct (FHE.allowThis h (acl s)) as [a1|] eqn:H1; [|discriminate].
  destruct (FHE.makePubliclyDecryptable h a1) as [a2|] eqn:H2; [|discriminate].
  intros [= _ <-]. simpl. eauto 10.
Qed.

(** The converse: when the key is free and the library admits the
    ciphertext, the call returns normally. *)
Lemma createMedicalCase_admitted env caseId patientId ed proof ident history s h a' :
  exists_case s caseId = false ->
  admits env ed proof (acl s) h a' ->
  createMedicalCase env caseId patientId ed proof ident history s =
  Ok tt (mkState
           (<[caseId := new_case env patientId h ident history]> (medicalCases s))
           (caseIds s ++ [caseId]) a'
           (events s ++ [MedicalCaseCreated caseId (msg_sender env)])).
Proof.
  unfold exists_case, admits. intros He (Hf & Hi & a1 & H1 & H2).
  rewrite createMedicalCase_unfold, length_zero_eqb, He. simpl.
  rewrite Hf, Hi. cbv zeta. rewrite H1, H2. reflexivity.
Qed.

Lemma verifyDiagnosis_Ok env caseId clear proof s u s' :
  verifyDiagnosis env caseId clear proof s = Ok u s' ->
  let c := medicalCases s !!! caseId in
  exists_case s caseId = true /\
  MedicalCase.isVerified c = false /\
  FHE.checkSignatures
    [FHE.toBytes32 (MedicalCase.encryptedDiagnosis c)] clear proof = true /\
  exists v, abi_decode_uint32 clear = Some v /\
    medicalCases s' =
      <[caseId := MedicalCase.set_isVerified true
                    (MedicalCase.set_decryptedDiagnosis v c)]> (medicalCases s) /\
    caseIds s' = caseIds s /\
    acl s' = acl s /\
    events s' = events s ++ [DiagnosisVerified caseId v].
Proof.
  rewrite verifyDiagnosis_unfold. unfold exists_case. cbv zeta.
  destruct (0 <? String.length _)%nat; [|discriminate].
  destruct (MedicalCase.isVerified _); simpl; [discriminate|].
  destruct (FHE.checkSignatures _ _ _); [|discriminate].
  destruct (abi_decode_uint32 clear) as [v|]; [|discriminate].
  intros [= _ <-]. simpl. eauto 10.
Qed.

(** ** One transaction *)

(** A transaction leaves the records of all other keys alone. *)
Lemma transact_other tx s k :
  call_id (snd tx) <> k ->
  medicalCases (transact tx s) !!! k = medicalCases s !!! k.
Proof.
  destruct tx as [env [id p ed pr n hist | id clear pr]]; simpl; intros Hne;
    unfold transact, commit; simpl.
  - destruct (createMedicalCase _ _ _ _ _ _ _ s) as [u s'|e s'] eqn:Hc;
      [|reflexivity].
    apply createMedicalCase_Ok in Hc as (_ & h & _ & -> & _).
    now rewrite lookup_total_insert_ne.
  - destruct (verifyDiagnosis _ _ _ _ s) as [u s'|e s'] eqn:Hc; [|reflexivity].
    apply verifyDiagnosis_Ok in Hc as (_ & _ & _ & v & _ & -> & _).
    now rewrite lookup_total_insert_ne.
Qed.

(** A transaction appends to [caseIds] the key it created, if any. *)
Lemma transact_caseIds tx s :
  caseIds (transact tx s) = caseIds s ++ created [tx] s.
Proof.
  destruct tx as [env [id p ed pr n hist | id clear pr]];
    unfold transact, commit; simpl.
  - destruct (createMedicalCase _ _ _ _ _ _ _ s) as [u s'|e s'] eqn:Hc.
    + now apply createMedicalCase_Ok in Hc as (_ & h & _ & _ & -> & _).
    + now rewrite app_nil_r.
  - destruct (verifyDiagnosis _ _ _ _ s) as [u s'|e s'] eqn:Hc.
    + apply verifyDiagnosis_Ok in Hc as (_ & _ & _ & v & _ & _ & -> & _).
      now rewrite app_nil_r.
    + now rewrite app_nil_r.
Qed.

Lemma created_cons tx txs s :
  created (tx :: txs) s = created [tx] s ++ created txs (transact tx s).
Proof.
  destruct tx as [env [id p ed pr n hist | id clear pr]];
    cbn [created snd fst dispatch].
  - destruct (createMedicalCase _ _ _ _ _ _ _ s); reflexivity.
  - reflexivity.
Qed.

(** An existing case keeps its identity, and once verified it is frozen. *)
Lemma transact_existing tx s k :
  exists_case s k = true ->
  let c := medicalCases s !!! k in
  let c' := medicalCases (transact tx s) !!! k in
  same_identity c c' /\
  (MedicalCase.isVerified c = true -> c' = c).
Proof.
  intros He. cbv zeta.
  destruct (decide (call_id (snd tx) = k)) as [<-|Hne].
  2:{ rewrite transact_other by exact Hne. unfold same_identity. tauto. }
  destruct tx as [env [id p ed pr n hist | id clear pr]]; simpl in *;
    unfold transact, commit; simpl.
  - destruct (createMedicalCase _ _ _ _ _ _ _ s) as [u s'|e s'] eqn:Hc.
    + apply createMedicalCase_Ok in Hc as (Hf & _). congruence.
    + unfold same_identity. tauto.
  - destruct (verifyDiagnosis _ _ _ _ s) as [u s'|e s'] eqn:Hc.
    + apply verifyDiagnosis_Ok in Hc as (_ & Hv & _ & v & _ & -> & _).
      rewrite lookup_total_insert_eq. split.
      * unfold same_identity. simpl. tauto.
      * congruence.
    + unfold same_identity. tauto.
Qed.

Lemma same_identity_exists s s' k :
  same_identity (medicalCases s !!! k) (medicalCases s' !!! k) ->
  exists_case s' k = exists_case s k.
Proof. unfold exists_case. intros (-> & _). reflexivity. Qed.

(** ** Sequences of transactions *)

Lemma run_cons tx txs s : run (tx :: txs) s = run txs (transact tx s).
Proof. reflexivity. Qed.

Lemma run_app txs1 txs2 s : run (txs1 ++ txs2) s = run txs2 (run txs1 s).
Proof. unfold run. apply fold_left_app. Qed.

(** [caseIds] grows by exactly the keys created, in order. *)
Lemma run_caseIds txs s :
  caseIds (run txs s) = caseIds s ++ created txs s.
Proof.
  revert s. induction txs as [|tx txs IH]; intros s.
  - simpl. now rewrite app_nil_r.
  - rewrite run_cons, created_cons, IH, transact_caseIds, app_assoc.
    reflexivity.
Qed.

Lemma run_existing txs s k :
  exists_case s k = true ->
  let c := medicalCases s !!! k in
  let c' := medicalCases (run txs s) !!! k in
  same_identity c c' /\
  (MedicalCase.isVerified c = true -> c' = c).
Proof.
  revert s. induction txs as [|tx txs IH]; intros s He; cbv zeta.
  - simpl. unfold same_identity. tauto.
  - rewrite run_cons.
    destruct (transact_existing tx s k He) as [Hid Hfr].
    assert (He' : exists_case (transact tx s) k = true)
      by (rewrite (same_identity_exists s) by exact Hid; exact He).
    destruct (IH _ He') as [Hid' Hfr'].
    split.
    + unfold same_identity in *. intuition congruence.
    + intros Hv. rewrite Hfr' by (rewrite Hfr by exact Hv; exact Hv).
      now apply Hfr.
Qed.

(** A key that no call of the sequence creates keeps its empty record. *)
Lemma run_never_created txs s k :
  exists_case s k = false ->
  k ∉ created txs s ->
  medicalCases (run txs s) !!! k = medicalCases s !!! k.
Proof.
  revert s. induction txs as [|tx txs IH]; intros s He Hk; [reflexivity|].
  rewrite run_cons. rewrite created_cons in Hk.
  apply not_elem_of_app in Hk as [Hk1 Hk2].
  assert (Hsame : medicalCases (transact tx s) !!! k = medicalCases s !!! k).
  { destruct (decide (call_id (snd tx) = k)) as [<-|Hne];
      [|now apply transact_other].
    destruct tx as [env [id p ed pr n hist | id clear pr]];
      unfold transact, commit; cbn [call_id snd fst dispatch] in *.
    - destruct (createMedicalCase _ _ _ _ _ _ _ s) as [u s'|e s'] eqn:Hc;
        [|reflexivity].
      exfalso. apply Hk1. cbn [created snd fst dispatch]. rewrite Hc.
      set_solver.
    - destruct (verifyDiagnosis _ _ _ _ s) as [u s'|e s'] eqn:Hc;
        [|reflexivity].
      apply verifyDiagnosis_Ok in Hc as (Hex & _). congruence. }
  rewrite IH; [exact Hsame | | exact Hk2].
  unfold exists_case in *. now rewrite Hsame.
Qed.

Lemma created_verify_only txs s :
  Forall is_verify txs -> created txs s = [].
Proof.
  intros Hv. revert s. induction Hv as [|tx txs Htx _ IH]; intros s;
    [reflexivity|].
  destruct tx as [env [id p ed pr n hist | id clear pr]];
    [destruct Htx|].
  cbn [created snd]. apply IH.
Qed.

Lemma not_exists_reverts s k :
  exists_case s k = false ->
  (forall env clear proof,
     verifyDiagnosis env k clear proof s =
     Revert (Error "Medical case does not exist") s) /\
  getMedicalCase k s = Revert (Error "Medical case does not exist") s /\
  getEncryptedDiagnosis k s = Revert (Error "Medical case does not exist") s.
Proof.
  unfold exists_case. intros He. repeat split; intros;
    rewrite ?verifyDiagnosis_unfold, ?getMedicalCase_unfold,
      ?getEncryptedDiagnosis_unfold; cbv zeta; now rewrite He.
Qed.

(** ** Uniqueness and immutability of the cases that exist

    The three lemmas below hold for every key whose stored [patientId] is
    not empty. *)

(** A second [createMedicalCase] on an existing case reverts and changes
    nothing. *)
Lemma createMedicalCase_duplicate env caseId patientId ed proof ident history s :
  exists_case s caseId = true ->
  createMedicalCase env caseId patientId ed proof ident history s =
    Revert (Error "Medical case already exists") s.
Proof.
  unfold exists_case. intros He.
  now rewrite createMedicalCase_unfold, length_zero_eqb, He.
Qed.

(** In every state reached from deployment, a verified record exists. *)
Lemma verified_exists a txs k :
  let s := run txs (deployed a) in
  MedicalCase.isVerified (medicalCases s !!! k) = true ->
  exists_case s k = true.
Proof.
  cbv zeta. induction txs as [|tx txs IH] using rev_ind.
  - simpl. now rewrite lookup_total_empty.
  - rewrite run_app. cbn [run fold_left].
    set (s := run txs (deployed a)) in *.
    destruct (decide (call_id (snd tx) = k)) as [<-|Hne].
    2:{ unfold exists_case in *. now rewrite transact_other by exact Hne. }
    destruct tx as [env [id p ed pr n hist | id clear pr]];
      unfold transact, commit; cbn [call_id fst snd dispatch] in *.
    + destruct (createMedicalCase _ _ _ _ _ _ _ s) as [u s'|e s'] eqn:Hc;
        [|exact IH].
      apply createMedicalCase_Ok in Hc as (_ & h & _ & Hm & _).
      rewrite Hm, lookup_total_insert_eq. discriminate.
    + destruct (verifyDiagnosis _ _ _ _ s) as [u s'|e s'] eqn:Hc; [|exact IH].
      apply verifyDiagnosis_Ok in Hc as (Hex & _ & _ & v & _ & Hm & _).
      intros _. unfold exists_case in *.
      now rewrite Hm, lookup_total_insert_eq.
Qed.

(** [isVerified] never goes back from [true] to [false]. *)
Lemma isVerified_monotone a txs txs' k :
  let s := run txs (deployed a) in
  MedicalCase.isVerified (medicalCases s !!! k) = true ->
  MedicalCase.isVerified (medicalCases (run txs' s) !!! k) = true.
Proof.
  cbv zeta. intros Hv.
  pose proof (verified_exists a txs k Hv) as He.
  destruct (run_existing txs' _ k He) as [_ Hfr].
  now rewrite Hfr.
Qed.

(** ** The properties of the specification *)

(** C2, monotonic verification: once [verifyDiagnosis] has returned normally
    on the encoding of a 32-bit value [v], [getMedicalCase] reports the case
    as verified with that value, and after any further transactions every
    [verifyDiagnosis] on the case reverts with "Diagnosis already verified"
    and the stored value is still [v]. *)
Theorem verifyDiagnosis_once env caseId v proof s u s1 :
  0 <= v < 2 ^ 32 ->
  verifyDiagnosis env caseId (abi_encode_uint32 v) proof s = Ok u s1 ->
  (exists view,
     getMedicalCase caseId s1 = Ok view s1 /\
     view_isVerified view = true /\
     view_decryptedDiagnosis view = v) /\
  forall txs env' clear' proof',
    let s2 := run txs s1 in
    verifyDiagnosis env' caseId clear' proof' s2 =
      Revert (Error "Diagnosis already verified") s2 /\
    transact (env', VerifyDiagnosis caseId clear' proof') s2 = s2 /\
    MedicalCase.decryptedDiagnosis (medicalCases s2 !!! caseId) = v.
Proof.
  intros Hv Hok.
  apply verifyDiagnosis_Ok in Hok as (Hex & _ & _ & v' & Hdec & Hm & _).
  rewrite abi_decode_encode_uint32 in Hdec by exact Hv.
  injection Hdec as <-.
  assert (Hrec : medicalCases s1 !!! caseId =
                 MedicalCase.set_isVerified true
                   (MedicalCase.set_decryptedDiagnosis v
                      (medicalCases s !!! caseId)))
    by (rewrite Hm; apply lookup_total_insert_eq).
  assert (Hex1 : exists_case s1 caseId = true)
    by (unfold exists_case in *; rewrite Hrec; exact Hex).
  split.
  - eexists. rewrite getMedicalCase_unfold. cbv zeta.
    unfold exists_case in Hex1. rewrite Hex1, Hrec.
    split; [reflexivity|]. split; reflexivity.
  - intros txs env' clear' proof' s2.
    destruct (run_existing txs s1 caseId Hex1) as [_ Hfr].
    fold s2 in Hfr. rewrite Hrec in Hfr. specialize (Hfr eq_refl).
    assert (Hrev : verifyDiagnosis env' caseId clear' proof' s2 =
                   Revert (Error "Diagnosis already verified") s2).
    { rewrite verifyDiagnosis_unfold. cbv zeta. rewrite Hfr. simpl.
      unfold exists_case in Hex. now rewrite Hex. }
    split; [exact Hrev|]. split.
    + unfold transact, commit. cbn [fst snd dispatch]. now rewrite Hrev.
    + now rewrite Hfr.
Qed.

(** C5, validation before mutation: a call that reverts leaves the state as
    it was.  Moreover the state is still untouched at the point of the
    revert, unless the revert comes from one of the two grant calls of
    [createMedicalCase], which follow its write. *)
Theorem revert_leaves_state env call e s s' :
  dispatch env call s = Revert e s' ->
  transact (env, call) s = s /\
  (e <> FHERevert "FHE.allowThis" ->
   e <> FHERevert "FHE.makePubliclyDecryptable" ->
   s' = s).
Proof.
  intros Hd. split.
  - unfold transact, commit. cbn [fst snd]. now rewrite Hd.
  - intros Hn1 Hn2. destruct call as [id p ed pr n hist | id clear pr];
      cbn [dispatch] in Hd.
    + rewrite createMedicalCase_unfold in Hd.
      destruct (String.length _ =? 0)%nat; [|congruence].
      destruct (FHE.fromExternal _ _ _) as [h|]; [|congruence].
      destruct (FHE.isInitialized h); [|congruence].
      cbv zeta in Hd.
      destruct (FHE.allowThis h (acl s)) as [a1|]; [|congruence].
      destruct (FHE.makePubliclyDecryptable h a1); congruence.
    + rewrite verifyDiagnosis_unfold in Hd. cbv zeta in Hd.
      destruct (0 <? String.length _)%nat; [|congruence].
      destruct (negb _); [|congruence].
      destruct (FHE.checkSignatures _ _ _); [|congruence].
      destruct (abi_decode_uint32 clear); congruence.
Qed.

(** C6, not-found closure: for a key that no transaction since deployment
    has created, [verifyDiagnosis], [getMedicalCase] and
    [getEncryptedDiagnosis] revert with "Medical case does not exist" and
    the state is untouched. *)
Theorem never_created_not_found a txs caseId env clear proof :
  caseId ∉ created txs (deployed a) ->
  let s := run txs (deployed a) in
  verifyDiagnosis env caseId clear proof s =
    Revert (Error "Medical case does not exist") s /\
  transact (env, VerifyDiagnosis caseId clear proof) s = s /\
  getMedicalCase caseId s = Revert (Error "Medical case does not exist") s /\
  getEncryptedDiagnosis caseId s =
    Revert (Error "Medical case does not exist") s.
Proof.
  intros Hk s.
  assert (He0 : exists_case (deployed a) caseId = false)
    by (unfold exists_case, deployed; simpl; now rewrite lookup_total_empty).
  assert (He : exists_case s caseId = false).
  { unfold exists_case, s in *. now rewrite run_never_created. }
  destruct (not_exists_reverts s caseId He) as (Hv & Hg & Hh).
  repeat split; auto.
  unfold transact, commit. cbn [fst snd dispatch]. now rewrite Hv.
Qed.

(** C7, enumeration order: after deployment [getAllCaseIds] returns the
    empty list; after creating "A", "B" and "C" in that order it returns
    exactly these three, and any sequence of [verifyDiagnosis] transactions
    leaves that answer unchanged. *)
Theorem getAllCaseIds_order a e1 p1 ed1 pr1 n1 h1 e2 p2 ed2 pr2 n2 h2
    e3 p3 ed3 pr3 n3 h3 u1 u2 u3 s1 s2 s3 :
  createMedicalCase e1 "A" p1 ed1 pr1 n1 h1 (deployed a) = Ok u1 s1 ->
  createMedicalCase e2 "B" p2 ed2 pr2 n2 h2 s1 = Ok u2 s2 ->
  createMedicalCase e3 "C" p3 ed3 pr3 n3 h3 s2 = Ok u3 s3 ->
  returned (getAllCaseIds (deployed a)) = inl [] /\
  returned (getAllCaseIds s3) = inl ["A"; "B"; "C"] /\
  forall vs, Forall is_verify vs ->
    returned (getAllCaseIds (run vs s3)) = inl ["A"; "B"; "C"].
Proof.
  intros H1 H2 H3.
  apply createMedicalCase_Ok in H1 as (_ & ? & _ & _ & Hc1 & _).
  apply createMedicalCase_Ok in H2 as (_ & ? & _ & _ & Hc2 & _).
  apply createMedicalCase_Ok in H3 as (_ & ? & _ & _ & Hc3 & _).
  assert (Hids : caseIds s3 = ["A"; "B"; "C"])
    by (rewrite Hc3, Hc2, Hc1; reflexivity).
  unfold getAllCaseIds, gets, returned. repeat split.
  - now rewrite Hids.
  - intros vs Hvs.
    now rewrite run_caseIds, created_verify_only, app_nil_r, Hids.
Qed.

(** C8, grants at creation: when [createMedicalCase] returns normally, the
    handle it stored in the new record is the one the library admitted, and
    it has been passed first to [FHE.allowThis] and then to
    [FHE.makePubliclyDecryptable], both of which succeeded; the resulting
    access-control list is the one of the final state. *)
Theorem createMedicalCase_grants env caseId patientId ed proof ident history s u s' :
  createMedicalCase env caseId patientId ed proof ident history s = Ok u s' ->
  let h := MedicalCase.encryptedDiagnosis (medicalCases s' !!! caseId) in
  FHE.fromExternal (msg_sender env) ed proof = Some h /\
  exists a1,
    FHE.allowThis h (acl s) = Some a1 /\
    FHE.makePubliclyDecryptable h a1 = Some (acl s').
Proof.
  intros Hok.
  apply createMedicalCase_Ok in Hok as (_ & h & (Hf & _ & a1 & H1 & H2) & -> & _).
  cbv zeta. rewrite lookup_total_insert_eq. simpl. eauto.
Qed.

(** C9, caller independence: [verifyDiagnosis] returns the same result and
    leaves the same state whoever sends the transaction and whenever. *)
Theorem verifyDiagnosis_any_caller env1 env2 caseId clear proof s :
  returned (verifyDiagnosis env1 caseId clear proof s) =
    returned (verifyDiagnosis env2 caseId clear proof s) /\
  transact (env1, VerifyDiagnosis caseId clear proof) s =
    transact (env2, VerifyDiagnosis caseId clear proof) s.
Proof.
  unfold transact. cbn [fst snd dispatch].
  now rewrite (verifyDiagnosis_unfold env1), (verifyDiagnosis_unfold env2).
Qed.

(** C10, existence is the non-emptiness of the stored [patientId]: on a free
    key, [createMedicalCase] with an empty [patientId] and an admitted
    ciphertext returns normally, stores its record and appends the key.  As
    long as the key is not created again, [verifyDiagnosis],
    [getMedicalCase] and [getEncryptedDiagnosis] revert on it with "Medical
    case does not exist", and a further [createMedicalCase] on it with an
    admitted ciphertext returns normally, replaces the record and appends
    the key once more. *)
Theorem empty_patientId_not_existing e1 caseId ed1 pr1 n1 hist1 s h1 a1 :
  exists_case s caseId = false ->
  admits e1 ed1 pr1 (acl s) h1 a1 ->
  exists s1,
    createMedicalCase e1 caseId "" ed1 pr1 n1 hist1 s = Ok tt s1 /\
    medicalCases s1 !!! caseId = new_case e1 "" h1 n1 hist1 /\
    caseIds s1 = caseIds s ++ [caseId] /\
    forall txs, caseId ∉ created txs s1 ->
      let s1' := run txs s1 in
      (forall env clear proof,
         verifyDiagnosis env caseId clear proof s1' =
         Revert (Error "Medical case does not exist") s1') /\
      getMedicalCase caseId s1' =
        Revert (Error "Medical case does not exist") s1' /\
      getEncryptedDiagnosis caseId s1' =
        Revert (Error "Medical case does not exist") s1' /\
      forall e2 p2 ed2 pr2 n2 hist2 h2 a2,
        admits e2 ed2 pr2 (acl s1') h2 a2 ->
        exists s2,
          createMedicalCase e2 caseId p2 ed2 pr2 n2 hist2 s1' = Ok tt s2 /\
          medicalCases s2 !!! caseId = new_case e2 p2 h2 n2 hist2 /\
          caseIds s2 =
            caseIds s ++ [caseId] ++ created txs s1 ++ [caseId].
Proof.
  intros He Ha.
  eexists. split; [apply (createMedicalCase_admitted _ _ _ _ _ _ _ _ _ _ He Ha)|].
  set (s1 := mkState _ _ _ _).
  assert (Hrec : medicalCases s1 !!! caseId = new_case e1 "" h1 n1 hist1)
    by apply lookup_total_insert_eq.
  assert (He1 : exists_case s1 caseId = false)
    by (unfold exists_case; now rewrite Hrec).
  split; [exact Hrec|]. split; [reflexivity|].
  intros txs Hk s1'.
  assert (He1' : exists_case s1' caseId = false).
  { unfold exists_case, s1' in *. now rewrite run_never_created. }
  destruct (not_exists_reverts s1' caseId He1') as (Hv & Hg & Hh).
  repeat split; auto.
  intros e2 p2 ed2 pr2 n2 hist2 h2 a2 Ha2.
  eexists. split; [apply (createMedicalCase_admitted _ _ _ _ _ _ _ _ _ _ He1' Ha2)|].
  simpl. split; [apply lookup_total_insert_eq|].
  unfold s1'. rewrite run_caseIds. simpl. now rewrite <- !app_assoc.
Qed.

End Properties.

(** * Further properties of the contract *)

Section Reachability.

Context `{lib : FHE.Lib}.

(** What a transaction does to the state: nothing, a creation or a
    verification. *)
Lemma transact_inv tx s :
  transact tx s = s \/
  (exists env id p ed pr n hist h a',
     tx = (env, CreateMedicalCase id p ed pr n hist) /\
     exists_case s id = false /\
     admits env ed pr (acl s) h a' /\
     transact tx s =
       mkState (<[id := new_case env p h n hist]> (medicalCases s))
               (caseIds s ++ [id]) a'
               (events s ++ [MedicalCaseCreated id (msg_sender env)])) \/
  (exists env id clear pr v,
     tx = (env, VerifyDiagnosis id clear pr) /\
     exists_case s id = true /\
     MedicalCase.isVerified (medicalCases s !!! id) = false /\
     FHE.checkSignatures
       [FHE.toBytes32 (MedicalCase.encryptedDiagnosis (medicalCases s !!! id))]
       clear pr = true /\
     abi_decode_uint32 clear = Some v /\
     transact tx s =
       mkState (<[id := MedicalCase.set_isVerified true
                          (MedicalCase.set_decryptedDiagnosis v
                             (medicalCases s !!! id))]> (medicalCases s))
               (caseIds s) (acl s)
               (events s ++ [DiagnosisVerified id v])).
Proof.
  destruct tx as [env [id p ed pr n hist | id clear pr]];
    unfold transact, commit; cbn [fst snd dispatch].
  - destruct (createMedicalCase _ _ _ _ _ _ _ s) as [u s'|e s'] eqn:Hc;
      [|now left].
    right; left.
    pose proof Hc as Hc'.
    apply createMedicalCase_Ok in Hc' as (He & h & Ha & _).
    rewrite (createMedicalCase_admitted _ _ _ _ _ _ _ _ _ _ He Ha) in Hc.
    injection Hc as _ <-.
    exists env, id, p, ed, pr, n, hist, h, (acl s'). auto.
  - destruct (verifyDiagnosis _ _ _ _ s) as [u s'|e s'] eqn:Hc; [|now left].
    right; right.
    pose proof Hc as Hc'.
    apply verifyDiagnosis_Ok in Hc' as (He & Hv & Hs & v & Hd & _).
    rewrite verifyDiagnosis_unfold in Hc. cbv zeta in Hc.
    unfold exists_case in He. rewrite He, Hv, Hs, Hd in Hc. simpl in Hc.
    injection Hc as _ <-.
    exists env, id, clear, pr, v. repeat split; auto.
Qed.

Lemma reachable_deployed a : reachable (deployed a).
Proof. exists a, []. reflexivity. Qed.

Lemma reachable_transact tx s : reachable s -> reachable (transact tx s).
Proof.
  intros (a & txs & ->). exists a, (txs ++ [tx]). now rewrite run_app.
Qed.

Lemma reachable_run txs s : reachable s -> reachable (run txs s).
Proof.
  revert s. induction txs as [|tx txs IH]; intros s Hs; [exact Hs|].
  rewrite run_cons. apply IH. now apply reachable_transact.
Qed.

(** Induction over the reachable states. *)
Lemma reachable_invariant (P : State -> Prop) :
  (forall a, P (deployed a)) ->
  (forall tx s, reachable s -> P s -> P (transact tx s)) ->
  forall s, reachable s -> P s.
Proof.
  intros H0 Hstep s (a & txs & ->).
  induction txs as [|tx txs IH] using rev_ind; [apply H0|].
  rewrite run_app. cbn [run fold_left]. apply Hstep; [|exact IH].
  exists a, txs. reflexivity.
Qed.

Lemma reachable_verified_exists s k :
  reachable s ->
  MedicalCase.isVerified (medicalCases s !!! k) = true ->
  exists_case s k = true.
Proof. intros (a & txs & ->). apply verified_exists. Qed.

(** An existing case is not created again. *)
Lemma created_existing txs s k :
  exists_case s k = true -> k ∉ created txs s.
Proof.
  revert s. induction txs as [|tx txs IH]; intros s He; [apply not_elem_of_nil|].
  rewrite created_cons. apply not_elem_of_app. split.
  - destruct tx as [env [id p ed pr n hist | id clear pr]];
      cbn [created fst snd dispatch]; [|apply not_elem_of_nil].
    destruct (createMedicalCase _ _ _ _ _ _ _ s) as [u s'|e s'] eqn:Hc;
      [|apply not_elem_of_nil].
    apply createMedicalCase_Ok in Hc as (Hf & _).
    intros Hin. apply list_elem_of_singleton in Hin. congruence.
  - apply IH.
    destruct (transact_existing tx s k He) as [Hid _].
    now rewrite (same_identity_exists s) by exact Hid.
Qed.

(** The state right after a creation with a patient id. *)
Lemma created_state env caseId patientId ed proof ident history s u s' :
  patientId <> "" ->
  createMedicalCase env caseId patientId ed proof ident history s = Ok u s' ->
  exists_case s' caseId = true /\
  exists h,
    FHE.fromExternal (msg_sender env) ed proof = Some h /\
    FHE.isInitialized h = true /\
    medicalCases s' !!! caseId = new_case env patientId h ident history.
Proof.
  intros Hp Hc.
  apply createMedicalCase_Ok in Hc as (_ & h & (Hf & Hi & _) & Hm & _).
  assert (Hrec : medicalCases s' !!! caseId =
                 new_case env patientId h ident history)
    by (rewrite Hm; apply lookup_total_insert_eq).
  split; [|eauto].
  unfold exists_case. rewrite Hrec. simpl.
  destruct patientId; [congruence | reflexivity].
Qed.

End Reachability.

(** Induction over the reachable states, for a goal of the form
    [forall s, reachable s -> P s]. *)
Ltac reachable_induction :=
  match goal with
  | |- forall s, reachable s -> @?P s => apply (reachable_invariant P)
  end.

Section Lifecycle.

Context `{lib : FHE.Lib}.

(** X1, creation round trip: right after [createMedicalCase] has returned
    normally with a non-empty [patientId], [getMedicalCase] returns the
    arguments of the call, its sender and its block time, unverified and
    with value 0, and [getEncryptedDiagnosis] returns the handle the library
    admitted. *)
Theorem createMedicalCase_then_get
    env caseId patientId ed proof ident history s u s' :
  patientId <> "" ->
  createMedicalCase env caseId patientId ed proof ident history s = Ok u s' ->
  getMedicalCase caseId s' =
    Ok (mkView patientId ident history (msg_sender env) (block_timestamp env)
               false 0) s' /\
  exists h,
    FHE.fromExternal (msg_sender env) ed proof = Some h /\
    getEncryptedDiagnosis caseId s' = Ok h s'.
Proof.
  intros Hp Hc.
  destruct (created_state _ _ _ _ _ _ _ _ _ _ Hp Hc) as (He & h & Hf & _ & Hrec).
  unfold exists_case in He. split.
  - rewrite getMedicalCase_unfold. cbv zeta. rewrite He, Hrec. reflexivity.
  - exists h. split; [exact Hf|].
    rewrite getEncryptedDiagnosis_unfold. cbv zeta. rewrite He, Hrec.
    reflexivity.
Qed.

(** X2, a created case keeps its identity: after a creation with a non-empty
    [patientId] and any further transactions, [getMedicalCase] still returns
    the patient id, case identifier, history, specialist and time of the
    creation, and [getEncryptedDiagnosis] the handle admitted then. *)
Theorem created_case_persists
    env caseId patientId ed proof ident history s u s1 txs :
  patientId <> "" ->
  createMedicalCase env caseId patientId ed proof ident history s = Ok u s1 ->
  let s2 := run txs s1 in
  (exists view,
     getMedicalCase caseId s2 = Ok view s2 /\
     view_patientId view = patientId /\
     view_caseIdentifier view = ident /\
     view_medicalHistory view = history /\
     view_specialist view = msg_sender env /\
     view_timestamp view = block_timestamp env) /\
  exists h,
    FHE.fromExternal (msg_sender env) ed proof = Some h /\
    getEncryptedDiagnosis caseId s2 = Ok h s2.
Proof.
  intros Hp Hc s2.
  destruct (created_state _ _ _ _ _ _ _ _ _ _ Hp Hc) as (He & h & Hf & _ & Hrec).
  destruct (run_existing txs s1 caseId He) as [Hid _]. fold s2 in Hid.
  assert (He2 : exists_case s2 caseId = true)
    by (rewrite (same_identity_exists s1) by exact Hid; exact He).
  rewrite Hrec in Hid.
  destruct Hid as (H1 & H2 & H3 & H4 & H5 & H6). simpl in *.
  unfold exists_case in He2. split.
  - eexists. rewrite getMedicalCase_unfold. cbv zeta. rewrite He2.
    split; [reflexivity|]. simpl. auto.
  - exists h. split; [exact Hf|].
    rewrite getEncryptedDiagnosis_unfold. cbv zeta. now rewrite He2, H2.
Qed.

(** X3, uniqueness of a proper case: when a key that was never created gets
    a case with a non-empty [patientId], every later [createMedicalCase] on
    the key reverts with "Medical case already exists", and the key occurs
    exactly once in the list [getAllCaseIds] returns, whatever transactions
    follow. *)
Theorem created_case_unique
    a txs0 env caseId patientId ed proof ident history u s1 txs :
  caseId ∉ created txs0 (deployed a) ->
  patientId <> "" ->
  createMedicalCase env caseId patientId ed proof ident history
    (run txs0 (deployed a)) = Ok u s1 ->
  let s2 := run txs s1 in
  (forall env' p' ed' pr' n' hist',
     createMedicalCase env' caseId p' ed' pr' n' hist' s2 =
     Revert (Error "Medical case already exists") s2) /\
  exists l1 l2,
    returned (getAllCaseIds s2) = inl (l1 ++ caseId :: l2) /\
    (caseId ∉ l1) /\ (caseId ∉ l2).
Proof.
  intros Hk Hp Hc s2.
  destruct (created_state _ _ _ _ _ _ _ _ _ _ Hp Hc) as (He & _).
  destruct (run_existing txs s1 caseId He) as [Hid _]. fold s2 in Hid.
  assert (He2 : exists_case s2 caseId = true)
    by (rewrite (same_identity_exists s1) by exact Hid; exact He).
  split.
  - intros. now apply createMedicalCase_duplicate.
  - apply createMedicalCase_Ok in Hc as (_ & h & _ & _ & Hids & _).
    exists (created txs0 (deployed a)), (created txs s1).
    unfold getAllCaseIds, gets, returned, s2.
    rewrite run_caseIds, Hids, run_caseIds. simpl.
    split; [now rewrite <- app_assoc|].
    split; [exact Hk | now apply created_existing].
Qed.

(** X4, the decrypted value: in every reachable state the stored
    [decryptedDiagnosis] of any key is a 32-bit value, and it is 0 as long
    as the record is not verified. *)
Theorem decryptedDiagnosis_invariant s k :
  reachable s ->
  let c := medicalCases s !!! k in
  0 <= MedicalCase.decryptedDiagnosis c < 2 ^ 32 /\
  (MedicalCase.isVerified c = false -> MedicalCase.decryptedDiagnosis c = 0).
Proof.
  intros Hs. cbv zeta. revert k. revert s Hs.
  reachable_induction; [intros a k | intros tx s _ IH k].
  - simpl. rewrite lookup_total_empty. simpl. split; [lia | reflexivity].
  - destruct (transact_inv tx s) as
      [-> | [(env & id & p & ed & pr & n & hist & h & a' & _ & _ & _ & ->)
            | (env & id & clear & pr & v & _ & _ & _ & _ & Hd & ->)]];
      [apply IH | |]; simpl.
    + destruct (decide (id = k)) as [->|Hne].
      * rewrite lookup_total_insert_eq. simpl. split; [lia | reflexivity].
      * rewrite lookup_total_insert_ne by exact Hne. apply IH.
    + destruct (decide (id = k)) as [->|Hne].
      * rewrite lookup_total_insert_eq. simpl.
        split; [now apply abi_decode_uint32_range in Hd | discriminate].
      * rewrite lookup_total_insert_ne by exact Hne. apply IH.
Qed.

(** X5, enumeration is complete: in every reachable state, a key on which
    [getMedicalCase] returns normally is in the list [getAllCaseIds]
    returns. *)
Theorem existing_case_enumerated s k view s' :
  reachable s ->
  getMedicalCase k s = Ok view s' ->
  exists ids, returned (getAllCaseIds s) = inl ids /\ k ∈ ids.
Proof.
  intros Hs Hg. exists (caseIds s). split; [reflexivity|].
  assert (He : exists_case s k = true).
  { rewrite getMedicalCase_unfold in Hg. cbv zeta in Hg. unfold exists_case.
    destruct (0 <? String.length _)%nat; [reflexivity | discriminate]. }
  clear Hg. revert He. revert s Hs.
  reachable_induction; [intros a | intros tx s _ IH].
  - unfold exists_case. simpl. rewrite lookup_total_empty. discriminate.
  - destruct (transact_inv tx s) as
      [-> | [(env & id & p & ed & pr & n & hist & h & a' & _ & _ & _ & ->)
            | (env & id & clear & pr & v & _ & He0 & _ & _ & _ & ->)]];
      [exact IH | |]; unfold exists_case in *; simpl.
    + destruct (decide (id = k)) as [->|Hne].
      * intros _. apply elem_of_app. right. now apply list_elem_of_singleton.
      * rewrite lookup_total_insert_ne by exact Hne. intros He.
        apply elem_of_app. left. now apply IH.
    + destruct (decide (id = k)) as [->|Hne].
      * intros _. now apply IH.
      * rewrite lookup_total_insert_ne by exact Hne. exact IH.
Qed.

(** X6, stored handles are admitted handles: in every reachable state, the
    record of every enumerated key holds a handle that the library returned
    for an input of the recorded specialist and that the library reports as
    initialized. *)
Theorem stored_handle_admitted s k :
  reachable s ->
  k ∈ caseIds s ->
  let c := medicalCases s !!! k in
  FHE.isInitialized (MedicalCase.encryptedDiagnosis c) = true /\
  exists ed proof,
    FHE.fromExternal (MedicalCase.specialist c) ed proof =
      Some (MedicalCase.encryptedDiagnosis c).
Proof.
  intros Hs. cbv zeta. revert s Hs.
  reachable_induction; [intros a | intros tx s _ IH].
  - simpl. intros Hin. now apply not_elem_of_nil in Hin.
  - destruct (transact_inv tx s) as
      [-> | [(env & id & p & ed & pr & n & hist & h & a' & _ & _ & Ha & ->)
            | (env & id & clear & pr & v & _ & He0 & _ & _ & _ & ->)]];
      [exact IH | |]; simpl.
    + destruct Ha as (Hf & Hi & _).
      destruct (decide (id = k)) as [->|Hne].
      * intros _. rewrite lookup_total_insert_eq. simpl. eauto.
      * rewrite lookup_total_insert_ne by exact Hne. intros Hin.
        apply elem_of_app in Hin as [Hin|Hin]; [now apply IH|].
        apply list_elem_of_singleton in Hin. congruence.
    + destruct (decide (id = k)) as [->|Hne].
      * rewrite lookup_total_insert_eq. simpl. exact IH.
      * rewrite lookup_total_insert_ne by exact Hne. exact IH.
Qed.

Lemma created_keys_app evs1 evs2 :
  created_keys (evs1 ++ evs2) = created_keys evs1 ++ created_keys evs2.
Proof.
  induction evs1 as [|[id sp | id v] evs1 IH]; simpl; [reflexivity | |];
    now rewrite IH.
Qed.

Lemma verified_log_app evs1 evs2 :
  verified_log (evs1 ++ evs2) = verified_log evs1 ++ verified_log evs2.
Proof.
  induction evs1 as [|[id sp | id v] evs1 IH]; simpl; [reflexivity | |];
    now rewrite IH.
Qed.

(** X7, the creation events mirror the id list: in every reachable state the
    keys of the [MedicalCaseCreated] events emitted so far, in order, are
    the list [getAllCaseIds] returns. *)
Theorem created_events_mirror_caseIds s :
  reachable s ->
  returned (getAllCaseIds s) = inl (created_keys (events s)).
Proof.
  intros Hs. unfold getAllCaseIds, gets, returned. f_equal. revert s Hs.
  reachable_induction; [reflexivity | intros tx s _ IH].
  destruct (transact_inv tx s) as
    [-> | [(env & id & p & ed & pr & n & hist & h & a' & _ & _ & _ & ->)
          | (env & id & clear & pr & v & _ & _ & _ & _ & _ & ->)]];
    [exact IH | |]; simpl; rewrite created_keys_app, IH; simpl;
    [reflexivity | now rewrite app_nil_r].
Qed.

(** X8, one verification per case: in every reachable state the
    [DiagnosisVerified] events emitted so far carry pairwise different keys,
    and an event for key [k] with value [v] is in the log exactly when the
    record of [k] is verified with [decryptedDiagnosis = v]. *)
Theorem verified_events_match_records s :
  reachable s ->
  NoDup (map fst (verified_log (events s))) /\
  forall k v,
    (k, v) ∈ verified_log (events s) <->
    MedicalCase.isVerified (medicalCases s !!! k) = true /\
    MedicalCase.decryptedDiagnosis (medicalCases s !!! k) = v.
Proof.
  revert s. reachable_induction; [intros a | intros tx s Hs IH].
  - simpl. split; [constructor|]. intros k v. rewrite lookup_total_empty.
    simpl. split; [intros H; now apply not_elem_of_nil in H | intros [? _]; discriminate].
  - destruct IH as [IHn IHm].
    destruct (transact_inv tx s) as
      [-> | [(env & id & p & ed & pr & n & hist & h & a' & _ & He0 & _ & ->)
            | (env & id & clear & pr & v0 & _ & He0 & Hv0 & _ & _ & ->)]];
      [now split | |]; simpl; rewrite verified_log_app; simpl.
    + rewrite app_nil_r. split; [exact IHn|]. intros k v.
      destruct (decide (id = k)) as [->|Hne].
      * rewrite lookup_total_insert_eq. simpl. rewrite IHm.
        split; [|intros [? _]; discriminate].
        intros [Hv _]. apply (reachable_verified_exists s k Hs) in Hv.
        congruence.
      * rewrite lookup_total_insert_ne by exact Hne. apply IHm.
    + split.
      * rewrite map_app. simpl. apply NoDup_app. split; [exact IHn|].
        split; [|apply NoDup_singleton].
        intros x Hx Hx'. apply list_elem_of_singleton in Hx'. subst x.
        apply list_elem_of_fmap in Hx as [[k v] [Hk Hin]]. simpl in Hk.
        subst k. apply IHm in Hin as [Hv _]. congruence.
      * intros k v. rewrite elem_of_app, list_elem_of_singleton.
        destruct (decide (id = k)) as [->|Hne].
        -- rewrite lookup_total_insert_eq. simpl. rewrite IHm. split.
           ++ intros [[Hv _] | [= ->]]; [congruence | auto].
           ++ intros [_ ->]. now right.
        -- rewrite lookup_total_insert_ne by exact Hne. rewrite IHm. split.
           ++ intros [H | [= ? _]]; [exact H | congruence].
           ++ intros H. now left.
Qed.

(** X9, a verified record is final: once a record is verified in a
    reachable state, no sequence of transactions changes any of its
    fields. *)
Theorem verified_record_frozen s k txs :
  reachable s ->
  MedicalCase.isVerified (medicalCases s !!! k) = true ->
  medicalCases (run txs s) !!! k = medicalCases s !!! k.
Proof.
  intros Hs Hv.
  pose proof (reachable_verified_exists s k Hs Hv) as He.
  destruct (run_existing txs s k He) as [_ Hfr]. now apply Hfr.
Qed.

(** X10, keys are independent: a transaction on one key changes neither the
    result of [getMedicalCase] and [getEncryptedDiagnosis] on another key
    nor the result any [verifyDiagnosis] on that other key would have. *)
Theorem other_key_unaffected tx s k :
  call_id (snd tx) <> k ->
  let s' := transact tx s in
  returned (getMedicalCase k s') = returned (getMedicalCase k s) /\
  returned (getEncryptedDiagnosis k s') =
    returned (getEncryptedDiagnosis k s) /\
  forall env clear proof,
    returned (verifyDiagnosis env k clear proof s') =
    returned (verifyDiagnosis env k clear proof s).
Proof.
  intros Hne s'. pose proof (transact_other tx s k Hne) as Heq. fold s' in Heq.
  repeat split; intros;
    rewrite ?getMedicalCase_unfold, ?getEncryptedDiagnosis_unfold,
      ?verifyDiagnosis_unfold; cbv zeta; rewrite Heq.
  - destruct (0 <? String.length _)%nat; reflexivity.
  - destruct (0 <? String.length _)%nat; reflexivity.
  - destruct (0 <? String.length _)%nat; [|reflexivity].
    destruct (negb _); [|reflexivity].
    destruct (FHE.checkSignatures _ _ _); [|reflexivity].
    destruct (abi_decode_uint32 clear); reflexivity.
Qed.

(** X11, attestation binding: for a case created with a non-empty
    [patientId], whatever transactions follow, a [verifyDiagnosis] that
    returns normally was checked by the library against the handle admitted
    at creation, and stores the value its cleartext decodes to; a cleartext
    and proof that the library rejects for that handle make the call revert
    with the state untouched. *)
Theorem verification_bound_to_admitted_handle
    env caseId patientId ed proof ident history s u s1 txs :
  patientId <> "" ->
  createMedicalCase env caseId patientId ed proof ident history s = Ok u s1 ->
  let s2 := run txs s1 in
  exists h,
    FHE.fromExternal (msg_sender env) ed proof = Some h /\
    (forall env' clear proof' u' s3,
       verifyDiagnosis env' caseId clear proof' s2 = Ok u' s3 ->
       FHE.checkSignatures [FHE.toBytes32 h] clear proof' = true /\
       exists v,
         abi_decode_uint32 clear = Some v /\
         MedicalCase.isVerified (medicalCases s3 !!! caseId) = true /\
         MedicalCase.decryptedDiagnosis (medicalCases s3 !!! caseId) = v) /\
    (forall env' clear proof',
       FHE.checkSignatures [FHE.toBytes32 h] clear proof' = false ->
       exists e, verifyDiagnosis env' caseId clear proof' s2 = Revert e s2).
Proof.
  intros Hp Hc s2.
  destruct (created_state _ _ _ _ _ _ _ _ _ _ Hp Hc) as (He & h & Hf & _ & Hrec).
  destruct (run_existing txs s1 caseId He) as [(_ & Hh & _) _]. fold s2 in Hh.
  rewrite Hrec in Hh. simpl in Hh.
  exists h. split; [exact Hf|]. split.
  - intros env' clear proof' u' s3 Hv.
    apply verifyDiagnosis_Ok in Hv as (_ & _ & Hs & v & Hd & Hm & _).
    rewrite Hh in Hs. split; [exact Hs|].
    exists v. split; [exact Hd|]. rewrite Hm, lookup_total_insert_eq. auto.
  - intros env' clear proof' Hrej.
    rewrite verifyDiagnosis_unfold. cbv zeta. rewrite Hh, Hrej.
    destruct (0 <? String.length _)%nat; [|eauto].
    destruct (negb _); eauto.
Qed.

(** X12, a missing key reads as zero: on a key that no transaction since
    deployment has created, the generated getter [medicalCases] returns
    normally, with every member of the struct at its zero value. *)
Theorem medicalCases_getter_missing a txs k :
  k ∉ created txs (deployed a) ->
  let s := run txs (deployed a) in
  medicalCases_getter k s = Ok MedicalCase.zero s.
Proof.
  intros Hk s. unfold medicalCases_getter, load, gets. f_equal.
  unfold s. rewrite run_never_created; [| |exact Hk].
  - simpl. rewrite lookup_total_empty. reflexivity.
  - unfold exists_case. simpl. now rewrite lookup_total_empty.
Qed.

(** The state a [verifyDiagnosis] transaction leaves. *)
Lemma transact_verify_eq env id clear pr s :
  transact (env, VerifyDiagnosis id clear pr) s =
  let c := medicalCases s !!! id in
  if (0 <? String.length (MedicalCase.patientId c))%nat
     && negb (MedicalCase.isVerified c)
     && FHE.checkSignatures
          [FHE.toBytes32 (MedicalCase.encryptedDiagnosis c)] clear pr
  then
    match abi_decode_uint32 clear with
    | Some v =>
        mkState (<[id := MedicalCase.set_isVerified true
                           (MedicalCase.set_decryptedDiagnosis v c)]>
                   (medicalCases s))
                (caseIds s) (acl s) (events s ++ [DiagnosisVerified id v])
    | None => s
    end
  else s.
Proof.
  unfold transact, commit. cbn [fst snd dispatch].
  rewrite verifyDiagnosis_unfold. cbv zeta.
  destruct (0 <? String.length _)%nat; [|reflexivity].
  destruct (negb _); [|reflexivity].
  destruct (FHE.checkSignatures _ _ _); [|reflexivity].
  destruct (abi_decode_uint32 clear); reflexivity.
Qed.

(** The state a [createMedicalCase] transaction leaves. *)
Lemma transact_create_eq env id p ed pr n hist s :
  transact (env, CreateMedicalCase id p ed pr n hist) s =
  if (0 <? String.length
             (MedicalCase.patientId (medicalCases s !!! id)))%nat
  then s
  else
    match FHE.fromExternal (msg_sender env) ed pr with
    | None => s
    | Some h =>
        if FHE.isInitialized h then
          match FHE.allowThis h (acl s) with
          | None => s
          | Some a1 =>
              match FHE.makePubliclyDecryptable h a1 with
              | None => s
              | Some a2 =>
                  mkState (<[id := new_case env p h n hist]> (medicalCases s))
                          (caseIds s ++ [id]) a2
                          (events s ++ [MedicalCaseCreated id (msg_sender env)])
              end
          end
        else s
    end.
Proof.
  unfold transact, commit. cbn [fst snd dispatch].
  rewrite createMedicalCase_unfold, length_zero_eqb.
  destruct (0 <? String.length _)%nat; [reflexivity|]. simpl.
  destruct (FHE.fromExternal _ _ _) as [h|]; [|reflexivity].
  destruct (FHE.isInitialized h); [|reflexivity]. cbv zeta.
  destruct (FHE.allowThis h (acl s)) as [a1|]; [|reflexivity].
  destruct (FHE.makePubliclyDecryptable h a1); reflexivity.
Qed.

(** X13, a verification commutes with a transaction on another key: both
    orders leave the same records, the same id list and the same
    access-control list, and emit the same events up to their order. *)
Theorem verifyDiagnosis_commutes env1 k1 clear1 pr1 tx2 s :
  call_id (snd tx2) <> k1 ->
  let t1 := (env1, VerifyDiagnosis k1 clear1 pr1) in
  let sa := run [t1; tx2] s in
  let sb := run [tx2; t1] s in
  medicalCases sa = medicalCases sb /\
  caseIds sa = caseIds sb /\
  acl sa = acl sb /\
  events sa ≡ₚ events sb.
Proof.
  intros Hne t1 sa sb. subst sa sb t1. cbn [run fold_left].
  destruct tx2 as [env2 [k2 p2 ed2 pr2 n2 hist2 | k2 clear2 pr2]];
    cbn [call_id snd] in Hne.
  - rewrite (transact_verify_eq env1 k1 clear1 pr1 s).
    rewrite (transact_create_eq env2 k2 p2 ed2 pr2 n2 hist2 s).
    cbv zeta.
    destruct ((0 <? String.length _)%nat && negb _ && FHE.checkSignatures _ _ _)
      eqn:H1;
      [destruct (abi_decode_uint32 clear1) as [v1|] eqn:Hd1|];
      rewrite transact_create_eq; cbn [medicalCases caseIds acl events];
      rewrite ?(lookup_total_insert_ne _ k1 k2) by congruence;
      (destruct (0 <? String.length
                   (MedicalCase.patientId (medicalCases s !!! k2)))%nat;
       [|destruct (FHE.fromExternal _ _ _) as [h|];
         [destruct (FHE.isInitialized h);
          [destruct (FHE.allowThis h (acl s)) as [a1|];
           [destruct (FHE.makePubliclyDecryptable h a1) as [a2|]|]|]|]]);
      rewrite transact_verify_eq; cbv zeta;
      cbn [medicalCases caseIds acl events];
      rewrite ?(lookup_total_insert_ne _ k2 k1) by congruence;
      rewrite H1, ?Hd1; cbn [medicalCases caseIds acl events];
      repeat split; try reflexivity.
    + apply insert_insert_ne. congruence.
    + rewrite <- !app_assoc. apply Permutation_app_head. simpl.
      apply perm_swap.
  - rewrite (transact_verify_eq env1 k1 clear1 pr1 s).
    rewrite (transact_verify_eq env2 k2 clear2 pr2 s).
    cbv zeta.
    destruct ((0 <? String.length _)%nat && negb _ && FHE.checkSignatures _ _ _)
      eqn:H1;
      [destruct (abi_decode_uint32 clear1) as [v1|] eqn:Hd1|];
      (destruct ((0 <? String.length
                    (MedicalCase.patientId (medicalCases s !!! k2)))%nat
                 && negb (MedicalCase.isVerified (medicalCases s !!! k2))
                 && FHE.checkSignatures _ clear2 pr2) eqn:H2;
       [destruct (abi_decode_uint32 clear2) as [v2|] eqn:Hd2|]);
      rewrite !transact_verify_eq; cbv zeta;
      cbn [medicalCases caseIds acl events];
      rewrite ?(lookup_total_insert_ne _ k2 k1) by congruence;
      rewrite ?(lookup_total_insert_ne _ k1 k2) by congruence;
      rewrite ?H1, ?H2, ?Hd1, ?Hd2; cbn [medicalCases caseIds acl events];
      repeat split; try reflexivity.
    + apply insert_insert_ne. congruence.
    + rewrite <- !app_assoc. apply Permutation_app_head. simpl.
      apply perm_swap.
Qed.

(** X17, the id list is append-only: whatever transactions run, the list
    [getAllCaseIds] returned before is a prefix of the list it returns
    after, and what is appended are the keys of the [createMedicalCase]
    calls that returned normally, in the order of the calls. *)
Theorem getAllCaseIds_append_only txs s :
  exists before,
    returned (getAllCaseIds s) = inl before /\
    returned (getAllCaseIds (run txs s)) = inl (before ++ created txs s).
Proof.
  exists (caseIds s). unfold getAllCaseIds, gets, returned.
  now rewrite run_caseIds.
Qed.

End Lifecycle.

(** * More on the ABI decoder *)

Lemma word_of_bytes_app (bs1 bs2 : bytes) :
  word_of_bytes (bs1 ++ bs2) =
  word_of_bytes bs1 * 256 ^ Z.of_nat (length bs2) + word_of_bytes bs2.
Proof.
  unfold word_of_bytes. rewrite fold_left_app.
  generalize (fold_left (fun acc b => acc * 256 + Z.of_N (Byte.to_N b)) bs1 0).
  induction bs2 as [|b bs2 IH] using rev_ind; intros acc.
  - simpl. lia.
  - rewrite !fold_left_app. cbn [fold_left]. rewrite IH.
    rewrite length_app, Nat2Z.inj_add. cbn [length].
    rewrite Z.pow_add_r by lia. change (256 ^ Z.of_nat 1) with 256. lia.
Qed.

Lemma byte_to_N_range (b : Byte.byte) : 0 <= Z.of_N (Byte.to_N b) < 256.
Proof. pose proof (Byte.to_N_bounded b). lia. Qed.

Lemma word_of_bytes_bound (bs : bytes) :
  0 <= word_of_bytes bs < 256 ^ Z.of_nat (length bs).
Proof.
  induction bs as [|b bs IH] using rev_ind.
  - cbn. lia.
  - rewrite word_of_bytes_app, length_app, Nat2Z.inj_add. cbn [length].
    rewrite Z.pow_add_r by lia. change (256 ^ Z.of_nat 1) with 256.
    assert (Hb : word_of_bytes [b] = Z.of_N (Byte.to_N b)) by (cbn; lia).
    rewrite Hb. pose proof (byte_to_N_range b). nia.
Qed.

Lemma byte_of_Z_of_byte (b : Byte.byte) :
  byte_of_Z (Z.of_N (Byte.to_N b)) = b.
Proof.
  unfold byte_of_Z. rewrite Z.mod_small by apply byte_to_N_range.
  now rewrite N2Z.id, Byte.of_to_N.
Qed.

Lemma word_of_bytes_zero (bs : bytes) :
  word_of_bytes bs = 0 -> bs = replicate (length bs) Byte.x00.
Proof.
  induction bs as [|b bs IH]; intros Hz; [reflexivity|].
  change (b :: bs) with ([b] ++ bs) in Hz. rewrite word_of_bytes_app in Hz.
  assert (Hb : word_of_bytes [b] = Z.of_N (Byte.to_N b)) by (cbn; lia).
  rewrite Hb in Hz.
  pose proof (byte_to_N_range b). pose proof (word_of_bytes_bound bs).
  assert (Hp : 0 < 256 ^ Z.of_nat (length bs)) by (apply Z.pow_pos_nonneg; lia).
  assert (Hb0 : Z.of_N (Byte.to_N b) = 0) by nia.
  assert (Hbs : word_of_bytes bs = 0) by nia.
  cbn [length replicate]. f_equal; [|now apply IH].
  rewrite <- (byte_of_Z_of_byte b), Hb0. reflexivity.
Qed.

(** X14, decoding looks at the first word only: a cleartext shorter than 32
    bytes is rejected, and the encoding of a 32-bit value followed by any
    bytes decodes to that value. *)
Theorem abi_decode_uint32_first_word (v : uint32) (data rest : bytes) :
  0 <= v < 2 ^ 32 ->
  (length data < 32)%nat ->
  abi_decode_uint32 data = None /\
  abi_decode_uint32 (abi_encode_uint32 v ++ rest) = Some v.
Proof.
  intros Hv Hlen. split.
  - unfold abi_decode_uint32.
    destruct (Nat.ltb_spec (length data) 32); [reflexivity | lia].
  - unfold abi_decode_uint32.
    rewrite length_app, abi_encode_uint32_length.
    destruct (Nat.ltb_spec (32 + length rest) 32); [lia|]. cbv zeta.
    rewrite (take_app_length' (abi_encode_uint32 v) rest 32) by reflexivity.
    rewrite word_of_bytes_encode by exact Hv.
    destruct (Z.ltb_spec v (2 ^ 32)); [reflexivity | lia].
Qed.

(** X15, accepted cleartexts are canonical: when the decoder returns [v],
    the first 32 bytes of its input are exactly the encoding of [v]. *)
Theorem abi_decode_uint32_canonical (data : bytes) (v : uint32) :
  abi_decode_uint32 data = Some v ->
  take 32 data = abi_encode_uint32 v.
Proof.
  unfold abi_decode_uint32.
  destruct (Nat.ltb_spec (length data) 32) as [|Hlen]; [discriminate|].
  cbv zeta.
  destruct (Z.ltb_spec (word_of_bytes (take 32 data)) (2 ^ 32)) as [Hw|];
    [|discriminate].
  intros [= <-].
  set (bs := take 32 data) in *.
  assert (Hbs : length bs = 32%nat) by (unfold bs; rewrite length_take; lia).
  clearbody bs.
  pose proof (take_drop 28 bs) as Hsplit.
  assert (Hhi : length (take 28 bs) = 28%nat) by (rewrite length_take; lia).
  assert (Hlo : length (drop 28 bs) = 4%nat) by (rewrite length_drop; lia).
  set (hi := take 28 bs) in *. set (lo := drop 28 bs) in *.
  clearbody hi lo. subst bs.
  rewrite word_of_bytes_app, Hlo in Hw |- *.
  change (256 ^ Z.of_nat 4) with (2 ^ 32) in Hw |- *.
  pose proof (word_of_bytes_bound hi) as Bhi.
  pose proof (word_of_bytes_bound lo) as Blo.
  rewrite Hlo in Blo. change (256 ^ Z.of_nat 4) with (2 ^ 32) in Blo.
  assert (Hz : word_of_bytes hi = 0) by nia.
  rewrite Hz, Z.mul_0_l, Z.add_0_l.
  apply word_of_bytes_zero in Hz. rewrite Hhi in Hz.
  unfold abi_encode_uint32. rewrite <- Hz. f_equal.
  destruct lo as [|b3 [|b2 [|b1 [|b0 [|? ?]]]]]; try discriminate Hlo.
  assert (Hv : word_of_bytes [b3; b2; b1; b0] =
               ((Z.of_N (Byte.to_N b3) * 256 + Z.of_N (Byte.to_N b2)) * 256
                + Z.of_N (Byte.to_N b1)) * 256 + Z.of_N (Byte.to_N b0))
    by (cbn; lia).
  rewrite Hv.
  rewrite <- (byte_of_Z_of_byte b3) at 1. rewrite <- (byte_of_Z_of_byte b2) at 1.
  rewrite <- (byte_of_Z_of_byte b1) at 1. rewrite <- (byte_of_Z_of_byte b0) at 1.
  pose proof (byte_to_N_range b3). pose proof (byte_to_N_range b2).
  pose proof (byte_to_N_range b1). pose proof (byte_to_N_range b0).
  set (n3 := Z.of_N (Byte.to_N b3)) in *. clearbody n3.
  set (n2 := Z.of_N (Byte.to_N b2)) in *. clearbody n2.
  set (n1 := Z.of_N (Byte.to_N b1)) in *. clearbody n1.
  set (n0 := Z.of_N (Byte.to_N b0)) in *. clearbody n0.
  clear Hv Hw Blo Bhi Hz Hlo Hhi.
  change (2 ^ 24) with 16777216. change (2 ^ 16) with 65536.
  change (2 ^ 8) with 256.
  assert (Hbyte : forall x y, x mod 256 = y mod 256 -> byte_of_Z x = byte_of_Z y)
    by (intros x y Hxy; unfold byte_of_Z; now rewrite Hxy).
  f_equal; [|f_equal; [|f_equal; [|f_equal]]]; apply Hbyte;
    Z.div_mod_to_equations; lia.
Qed.

(** * The operation history of the front end *)

Lemma history_after_snoc ops op :
  App.history_after (ops ++ [op]) =
  App.addToHistory (fst op) (snd op) (App.history_after ops).
Proof. unfold App.history_after. now rewrite fold_left_app. Qed.

(** X16, the history is the last ten operations: after any sequence of
    [addToHistory] calls the history holds the entries of the ten most
    recent calls, newest first, and so never more than ten entries. *)
Theorem history_last_ten (ops : list (string * string)) :
  App.history_after ops =
    take 10 (rev (map (fun op => App.history_entry (fst op) (snd op)) ops)) /\
  (length (App.history_after ops) <= 10)%nat.
Proof.
  assert (H : App.history_after ops =
    take 10 (rev (map (fun op => App.history_entry (fst op) (snd op)) ops))).
  { induction ops as [|op ops IH] using rev_ind; [reflexivity|].
    rewrite history_after_snoc, IH, map_app, rev_app_distr.
    unfold App.addToHistory. cbn [map rev app take].
    now rewrite take_take. }
  split; [exact H|]. rewrite H, length_take. lia.
Qed.

(** * The contract on concrete inputs

    The examples run the contract over [Mock.lib]. *)

Section Examples.

#[local] Existing Instance Mock.lib.

(** C1, uniqueness, fails on the contract: a case created with an empty
    [patientId] does not block its key.  The second [createMedicalCase] on
    "A" returns normally and replaces the record of the first. *)
Theorem createMedicalCase_twice_no_patient :
  let s0 := Mock.s0 in
  let s1 := transact Mock.create_A_no_patient s0 in
  let s2 := transact Mock.create_A_again s1 in
  returned (dispatch Mock.alice (snd Mock.create_A_no_patient) s0) = inl tt /\
  returned (dispatch Mock.bob (snd Mock.create_A_again) s1) = inl tt /\
  medicalCases s1 !!! "A" = new_case Mock.alice "" 7 42 "history" /\
  medicalCases s2 !!! "A" = new_case Mock.bob "p2" 8 43 "second history".
Proof. vm_compute. repeat split. Qed.

(** C3, no duplicates in [caseIds], fails on the contract: the two calls
    above leave the key "A" twice in the list [getAllCaseIds] returns. *)
Theorem getAllCaseIds_duplicate :
  returned
    (getAllCaseIds
       (run [Mock.create_A_no_patient; Mock.create_A_again]
            Mock.s0))
  = inl ["A"; "A"].
Proof. vm_compute. reflexivity. Qed.

(** C4, immutability of a stored record, fails on the contract: the record
    stored under "A" with an empty [patientId] has every one of its fields
    replaced by the next [createMedicalCase] on "A". *)
Theorem stored_record_replaced :
  let s1 := run [Mock.create_A_no_patient] Mock.s0 in
  let c := medicalCases s1 !!! "A" in
  let c' := medicalCases (run [Mock.create_A_again] s1) !!! "A" in
  caseIds s1 = ["A"] /\
  MedicalCase.patientId c <> MedicalCase.patientId c' /\
  MedicalCase.encryptedDiagnosis c <> MedicalCase.encryptedDiagnosis c' /\
  MedicalCase.caseId c <> MedicalCase.caseId c' /\
  MedicalCase.medicalHistory c <> MedicalCase.medicalHistory c' /\
  MedicalCase.specialist c <> MedicalCase.specialist c' /\
  MedicalCase.timestamp c <> MedicalCase.timestamp c'.
Proof. vm_compute. repeat split; discriminate. Qed.

(** The end-to-end scenario: "case1" is created, then verified with 7. *)
Lemma verifyDiagnosis_once_witness :
  let s := transact Mock.create_case1 Mock.s0 in
  let s1 := transact (Mock.verify_case1 7) s in
  (exists view,
     getMedicalCase "case1" s1 = Ok view s1 /\
     view_isVerified view = true /\
     view_decryptedDiagnosis view = 7) /\
  forall txs env' clear' proof',
    let s2 := run txs s1 in
    verifyDiagnosis env' "case1" clear' proof' s2 =
      Revert (Error "Diagnosis already verified") s2 /\
    transact (env', VerifyDiagnosis "case1" clear' proof') s2 = s2 /\
    MedicalCase.decryptedDiagnosis (medicalCases s2 !!! "case1") = 7.
Proof.
  intros s s1.
  apply (verifyDiagnosis_once Mock.bob "case1" 7 Mock.proof s tt s1).
  - lia.
  - vm_compute. reflexivity.
Defined.

(** A second [createMedicalCase] on "case1" reverts without a write. *)
Lemma revert_leaves_state_witness :
  let s := transact Mock.create_case1 Mock.s0 in
  let call := CreateMedicalCase "case1" "p9" 9 Mock.proof 9 "h9" in
  dispatch Mock.bob call s = Revert (Error "Medical case already exists") s /\
  transact (Mock.bob, call) s = s.
Proof.
  intros s call.
  assert (H : dispatch Mock.bob call s =
              Revert (Error "Medical case already exists") s)
    by (vm_compute; reflexivity).
  split; [exact H|].
  exact (proj1 (revert_leaves_state Mock.bob call _ s s H)).
Defined.

(** "B" was never created when only "case1" was. *)
Lemma never_created_not_found_witness :
  let s := run [Mock.create_case1] Mock.s0 in
  verifyDiagnosis Mock.bob "B" (abi_encode_uint32 7) Mock.proof s =
    Revert (Error "Medical case does not exist") s /\
  transact (Mock.bob, VerifyDiagnosis "B" (abi_encode_uint32 7) Mock.proof) s = s /\
  getMedicalCase "B" s = Revert (Error "Medical case does not exist") s /\
  getEncryptedDiagnosis "B" s =
    Revert (Error "Medical case does not exist") s.
Proof.
  apply (never_created_not_found (lib := Mock.lib) Mock.acl0 [Mock.create_case1] "B" Mock.bob
           (abi_encode_uint32 7) Mock.proof).
  assert (Hc : created [Mock.create_case1] (@deployed Mock.lib Mock.acl0)
               = ["case1"])
    by (vm_compute; reflexivity).
  rewrite Hc. intros Hin. apply list_elem_of_singleton in Hin. discriminate Hin.
Defined.

(** "A", "B" and "C" created in that order over [Mock.lib]. *)
Lemma getAllCaseIds_order_witness :
  let s3 := run [Mock.create_A; Mock.create_B; Mock.create_C]
                Mock.s0 in
  returned (getAllCaseIds Mock.s0) = inl [] /\
  returned (getAllCaseIds s3) = inl ["A"; "B"; "C"] /\
  forall vs, Forall is_verify vs ->
    returned (getAllCaseIds (run vs s3)) = inl ["A"; "B"; "C"].
Proof.
  intros s3.
  apply (getAllCaseIds_order (lib := Mock.lib) Mock.acl0
           Mock.alice "pa" 1 Mock.proof 1 "ha"
           Mock.bob "pb" 2 Mock.proof 2 "hb"
           Mock.alice "pc" 3 Mock.proof 3 "hc"
           tt tt tt
           (run [Mock.create_A] Mock.s0)
           (run [Mock.create_A; Mock.create_B] Mock.s0)
           s3);
    vm_compute; reflexivity.
Defined.

(** Creating "case1" grants its handle 7 to the contract and to the public. *)
Lemma createMedicalCase_grants_witness :
  let s' := transact Mock.create_case1 Mock.s0 in
  let h := MedicalCase.encryptedDiagnosis (medicalCases s' !!! "case1") in
  h = 7 /\
  acl s' = Mock.mkAcl [7] [7] /\
  FHE.fromExternal (msg_sender Mock.alice) 7 Mock.proof = Some h /\
  exists a1,
    FHE.allowThis h (acl Mock.s0) = Some a1 /\
    FHE.makePubliclyDecryptable h a1 = Some (acl s').
Proof.
  intros s' h.
  split; [vm_compute; reflexivity|].
  split; [vm_compute; reflexivity|].
  apply (createMedicalCase_grants Mock.alice "case1" "p1" 7 Mock.proof 42
           "history" Mock.s0 tt s').
  vm_compute. reflexivity.
Defined.

(** "A" created without a patient id on the freshly deployed contract. *)
Lemma empty_patientId_not_existing_witness :
  exists s1,
    createMedicalCase Mock.alice "A" "" 7 Mock.proof 42 "history"
      Mock.s0 = Ok tt s1 /\
    medicalCases s1 !!! "A" = new_case Mock.alice "" 7 42 "history" /\
    caseIds s1 = caseIds Mock.s0 ++ ["A"] /\
    forall txs, "A" ∉ created txs s1 ->
      let s1' := run txs s1 in
      (forall env clear proof,
         verifyDiagnosis env "A" clear proof s1' =
         Revert (Error "Medical case does not exist") s1') /\
      getMedicalCase "A" s1' =
        Revert (Error "Medical case does not exist") s1' /\
      getEncryptedDiagnosis "A" s1' =
        Revert (Error "Medical case does not exist") s1' /\
      forall e2 p2 ed2 pr2 n2 hist2 h2 a2,
        admits e2 ed2 pr2 (acl s1') h2 a2 ->
        exists s2,
          createMedicalCase e2 "A" p2 ed2 pr2 n2 hist2 s1' = Ok tt s2 /\
          medicalCases s2 !!! "A" = new_case e2 p2 h2 n2 hist2 /\
          caseIds s2 =
            caseIds Mock.s0 ++ ["A"] ++ created txs s1 ++ ["A"].
Proof.
  apply (empty_patientId_not_existing (lib := Mock.lib) Mock.alice "A" 7 Mock.proof 42 "history"
           Mock.s0 7 (Mock.mkAcl [7] [7])).
  - vm_compute. reflexivity.
  - unfold admits. split; [reflexivity|]. split; [reflexivity|].
    exists (Mock.mkAcl [7] []). split; reflexivity.
Defined.

End Examples.

(** * The further properties on concrete inputs *)

Section MoreExamples.

#[local] Existing Instance Mock.lib.

(** The states the examples below start from are reachable. *)
Lemma mock_reachable txs : reachable (run txs Mock.s0).
Proof. exists Mock.acl0, txs. reflexivity. Qed.

(** "case1" read back right after its creation. *)
Lemma createMedicalCase_then_get_witness :
  let s' := transact Mock.create_case1 Mock.s0 in
  getMedicalCase "case1" s' =
    Ok (mkView "p1" 42 "history" 4097 1700000000 false 0) s' /\
  exists h,
    FHE.fromExternal 4097 7 Mock.proof = Some h /\
    getEncryptedDiagnosis "case1" s' = Ok h s'.
Proof.
  intros s'.
  apply (createMedicalCase_then_get Mock.alice "case1" "p1" 7 Mock.proof 42
           "history" Mock.s0 tt s').
  - discriminate.
  - vm_compute. reflexivity.
Defined.

(** "case1" read back after its verification and the creation of "B". *)
Lemma created_case_persists_witness :
  let s1 := transact Mock.create_case1 Mock.s0 in
  let s2 := run [Mock.verify_case1 7; Mock.create_B] s1 in
  (exists view,
     getMedicalCase "case1" s2 = Ok view s2 /\
     view_patientId view = "p1" /\
     view_caseIdentifier view = 42 /\
     view_medicalHistory view = "history" /\
     view_specialist view = 4097 /\
     view_timestamp view = 1700000000) /\
  exists h,
    FHE.fromExternal 4097 7 Mock.proof = Some h /\
    getEncryptedDiagnosis "case1" s2 = Ok h s2.
Proof.
  intros s1.
  apply (created_case_persists Mock.alice "case1" "p1" 7 Mock.proof 42
           "history" Mock.s0 tt s1 [Mock.verify_case1 7; Mock.create_B]).
  - discriminate.
  - vm_compute. reflexivity.
Defined.

(** "case1" is created after "A" and followed by "B". *)
Lemma created_case_unique_witness :
  let s1 := run [Mock.create_A; Mock.create_case1] Mock.s0 in
  let s2 := run [Mock.create_B] s1 in
  (forall env' p' ed' pr' n' hist',
     createMedicalCase env' "case1" p' ed' pr' n' hist' s2 =
     Revert (Error "Medical case already exists") s2) /\
  exists l1 l2,
    returned (getAllCaseIds s2) = inl (l1 ++ "case1" :: l2) /\
    ("case1" ∉ l1) /\ ("case1" ∉ l2).
Proof.
  intros s1.
  apply (created_case_unique (lib := Mock.lib) Mock.acl0 [Mock.create_A]
           Mock.alice "case1" "p1" 7 Mock.proof 42 "history" tt s1
           [Mock.create_B]).
  - assert (Hc : created [Mock.create_A] (@deployed Mock.lib Mock.acl0) = ["A"])
      by (vm_compute; reflexivity).
    rewrite Hc. intros Hin. apply list_elem_of_singleton in Hin.
    discriminate Hin.
  - discriminate.
  - vm_compute. reflexivity.
Defined.

(** The value of "B", created but not verified, after "case1" was verified
    with 7. *)
Lemma decryptedDiagnosis_invariant_witness :
  let s := run [Mock.create_case1; Mock.create_B; Mock.verify_case1 7]
               Mock.s0 in
  let c := medicalCases s !!! "B" in
  0 <= MedicalCase.decryptedDiagnosis c < 2 ^ 32 /\
  (MedicalCase.isVerified c = false -> MedicalCase.decryptedDiagnosis c = 0).
Proof.
  apply (decryptedDiagnosis_invariant _ "B"
           (mock_reachable
              [Mock.create_case1; Mock.create_B; Mock.verify_case1 7])).
Defined.

(** "case1" is listed once it can be read. *)
Lemma existing_case_enumerated_witness :
  let s := run [Mock.create_A; Mock.create_case1] Mock.s0 in
  exists ids, returned (getAllCaseIds s) = inl ids /\ "case1" ∈ ids.
Proof.
  intros s.
  apply (existing_case_enumerated s "case1"
           (mkView "p1" 42 "history" 4097 1700000000 false 0) s
           (mock_reachable [Mock.create_A; Mock.create_case1])).
  vm_compute. reflexivity.
Defined.

(** The handle of "case1" was admitted for its specialist. *)
Lemma stored_handle_admitted_witness :
  let s := run [Mock.create_A; Mock.create_case1] Mock.s0 in
  let c := medicalCases s !!! "case1" in
  FHE.isInitialized (MedicalCase.encryptedDiagnosis c) = true /\
  exists ed proof,
    FHE.fromExternal (MedicalCase.specialist c) ed proof =
      Some (MedicalCase.encryptedDiagnosis c).
Proof.
  intros s.
  apply (stored_handle_admitted s "case1"
           (mock_reachable [Mock.create_A; Mock.create_case1])).
  assert (Hids : caseIds s = ["A"; "case1"]) by (vm_compute; reflexivity).
  rewrite Hids. apply list_elem_of_In. simpl. auto.
Defined.

(** The creation events after "A", "case1" and a verification. *)
Lemma created_events_mirror_caseIds_witness :
  let s := run [Mock.create_A; Mock.create_case1; Mock.verify_case1 7]
               Mock.s0 in
  returned (getAllCaseIds s) = inl (created_keys (events s)).
Proof.
  apply (created_events_mirror_caseIds _
           (mock_reachable
              [Mock.create_A; Mock.create_case1; Mock.verify_case1 7])).
Defined.

(** The verification events after "case1" was verified with 7 and a second
    verification with 9 was refused. *)
Lemma verified_events_match_records_witness :
  let s := run [Mock.create_case1; Mock.verify_case1 7; Mock.verify_case1 9]
               Mock.s0 in
  NoDup (map fst (verified_log (events s))) /\
  forall k v,
    (k, v) ∈ verified_log (events s) <->
    MedicalCase.isVerified (medicalCases s !!! k) = true /\
    MedicalCase.decryptedDiagnosis (medicalCases s !!! k) = v.
Proof.
  apply (verified_events_match_records _
           (mock_reachable
              [Mock.create_case1; Mock.verify_case1 7; Mock.verify_case1 9])).
Defined.

(** "case1", verified with 7, stays as it is under further calls. *)
Lemma verified_record_frozen_witness :
  let s := run [Mock.create_case1; Mock.verify_case1 7] Mock.s0 in
  let txs := [Mock.verify_case1 9;
              (Mock.bob, CreateMedicalCase "case1" "p9" 9 Mock.proof 9 "h9")] in
  medicalCases (run txs s) !!! "case1" = medicalCases s !!! "case1".
Proof.
  intros s txs.
  apply (verified_record_frozen s "case1" txs
           (mock_reachable [Mock.create_case1; Mock.verify_case1 7])).
  vm_compute. reflexivity.
Defined.

(** Creating "B" does not show on "case1". *)
Lemma other_key_unaffected_witness :
  let s := run [Mock.create_case1] Mock.s0 in
  let s' := transact Mock.create_B s in
  returned (getMedicalCase "case1" s') = returned (getMedicalCase "case1" s) /\
  returned (getEncryptedDiagnosis "case1" s') =
    returned (getEncryptedDiagnosis "case1" s) /\
  forall env clear proof,
    returned (verifyDiagnosis env "case1" clear proof s') =
    returned (verifyDiagnosis env "case1" clear proof s).
Proof.
  intros s.
  apply (other_key_unaffected Mock.create_B s "case1").
  discriminate.
Defined.

(** Verifications of "case1" are checked against its handle 7. *)
Lemma verification_bound_to_admitted_handle_witness :
  let s1 := transact Mock.create_case1 Mock.s0 in
  let s2 := run [Mock.create_B] s1 in
  exists h,
    FHE.fromExternal 4097 7 Mock.proof = Some h /\
    (forall env' clear proof' u' s3,
       verifyDiagnosis env' "case1" clear proof' s2 = Ok u' s3 ->
       FHE.checkSignatures [FHE.toBytes32 h] clear proof' = true /\
       exists v,
         abi_decode_uint32 clear = Some v /\
         MedicalCase.isVerified (medicalCases s3 !!! "case1") = true /\
         MedicalCase.decryptedDiagnosis (medicalCases s3 !!! "case1") = v) /\
    (forall env' clear proof',
       FHE.checkSignatures [FHE.toBytes32 h] clear proof' = false ->
       exists e, verifyDiagnosis env' "case1" clear proof' s2 = Revert e s2).
Proof.
  intros s1.
  apply (verification_bound_to_admitted_handle Mock.alice "case1" "p1" 7
           Mock.proof 42 "history" Mock.s0 tt s1 [Mock.create_B]).
  - discriminate.
  - vm_compute. reflexivity.
Defined.

(** "B" was never created when only "case1" was. *)
Lemma medicalCases_getter_missing_witness :
  let s := run [Mock.create_case1] Mock.s0 in
  medicalCases_getter "B" s = Ok MedicalCase.zero s.
Proof.
  apply (medicalCases_getter_missing (lib := Mock.lib) Mock.acl0
           [Mock.create_case1] "B").
  assert (Hc : created [Mock.create_case1] (@deployed Mock.lib Mock.acl0)
               = ["case1"])
    by (vm_compute; reflexivity).
  rewrite Hc. intros Hin. apply list_elem_of_singleton in Hin. discriminate Hin.
Defined.

(** Verifying "case1" and creating "B", in both orders. *)
Lemma verifyDiagnosis_commutes_witness :
  let s := run [Mock.create_case1] Mock.s0 in
  let sa := run [Mock.verify_case1 7; Mock.create_B] s in
  let sb := run [Mock.create_B; Mock.verify_case1 7] s in
  medicalCases sa = medicalCases sb /\
  caseIds sa = caseIds sb /\
  acl sa = acl sb /\
  events sa ≡ₚ events sb.
Proof.
  intros s.
  apply (verifyDiagnosis_commutes Mock.bob "case1" (abi_encode_uint32 7)
           Mock.proof Mock.create_B s).
  discriminate.
Defined.

(** Four bytes are too short; the encoding of 7 and one more byte give 7. *)
Lemma abi_decode_uint32_first_word_witness :
  abi_decode_uint32 [Byte.x00; Byte.x00; Byte.x00; Byte.x07] = None /\
  abi_decode_uint32 (abi_encode_uint32 7 ++ [Byte.xff]) = Some 7.
Proof.
  apply (abi_decode_uint32_first_word 7
           [Byte.x00; Byte.x00; Byte.x00; Byte.x07] [Byte.xff]).
  - lia.
  - simpl. lia.
Defined.

(** A 33-byte cleartext whose first word is 7. *)
Lemma abi_decode_uint32_canonical_witness :
  take 32 (abi_encode_uint32 7 ++ [Byte.xff]) = abi_encode_uint32 7.
Proof.
  apply (abi_decode_uint32_canonical (abi_encode_uint32 7 ++ [Byte.xff]) 7).
  vm_compute. reflexivity.
Defined.

End MoreExamples.
